(** * scrape2sheets-server: the atomic quota ledger and its cache / rate-limit layer

    A shallow embedding of
      - the PL/pgSQL function [increment_usage_if_allowed]
        (migrations/add_atomic_usage_increment.sql),
      - [getEffectiveLimit] and [resetMonthlyUsageIfNeeded] (utils/usage.js),
      - the profile cache (services/user-cache-service.js) over the Redis
        client handle of services/redis-service.js,
      - the paths that write the [users] table: routes/user.js,
        routes/sheets.js, the webhook of routes/billing.js, and
        routes/scrape.js behind [requireAuth] (middleware/auth.js),
      - [getClientIp] / [keyGenerator] and the four limiter configurations
        (middleware/rate-limit.js),
      - the GET /health handler (server.js),
    followed by the properties proved about them. *)

From Stdlib Require Import ZArith Lia List String Ascii Bool.
From stdpp Require Import base option gmap strings list fin_maps.

Local Open Scope Z_scope.

(** ** Data model *)

(** A JavaScript [Date] / SQL [timestamptz], seen through the three
    observations the code makes of it. *)
Record Date := mkDate {
  getFullYear : Z;
  getMonth : Z;
  getTime : Z
}.

(** One row of the [users] table.  The primary key [id] is the key of the
    finite map that holds the rows.  [usage_this_month] and
    [plan_limits_scrapes] are SQL [int] columns; every write in the
    repository stores a number in them, so they are not modelled as
    nullable.  Columns the code never names are kept in [other_columns]. *)
Record UserRow := mkUserRow {
  plan : string;
  usage_this_month : Z;
  plan_limits_scrapes : Z;
  plan_limits_period : string;
  subscription_status : string;
  smart_formatting : bool;
  billing_date : option Date;
  google_provider_token : option string;
  google_provider_refresh_token : option string;
  stripe_customer_id : option string;
  stripe_subscription_id : option string;
  updated_at : Date;
  other_columns : gmap string string
}.

Definition set_plan (v : string) (u : UserRow) : UserRow :=
  mkUserRow v (usage_this_month u) (plan_limits_scrapes u)
    (plan_limits_period u) (subscription_status u) (smart_formatting u)
    (billing_date u) (google_provider_token u)
    (google_provider_refresh_token u) (stripe_customer_id u)
    (stripe_subscription_id u) (updated_at u) (other_columns u).

Definition set_usage_this_month (v : Z) (u : UserRow) : UserRow :=
  mkUserRow (plan u) v (plan_limits_scrapes u)
    (plan_limits_period u) (subscription_status u) (smart_formatting u)
    (billing_date u) (google_provider_token u)
    (google_provider_refresh_token u) (stripe_customer_id u)
    (stripe_subscription_id u) (updated_at u) (other_columns u).

Definition set_plan_limits_scrapes (v : Z) (u : UserRow) : UserRow :=
  mkUserRow (plan u) (usage_this_month u) v
    (plan_limits_period u) (subscription_status u) (smart_formatting u)
    (billing_date u) (google_provider_token u)
    (google_provider_refresh_token u) (stripe_customer_id u)
    (stripe_subscription_id u) (updated_at u) (other_columns u).

Definition set_plan_limits_period (v : string) (u : UserRow) : UserRow :=
  mkUserRow (plan u) (usage_this_month u) (plan_limits_scrapes u)
    v (subscription_status u) (smart_formatting u)
    (billing_date u) (google_provider_token u)
    (google_provider_refresh_token u) (stripe_customer_id u)
    (stripe_subscription_id u) (updated_at u) (other_columns u).

Definition set_subscription_status (v : string) (u : UserRow) : UserRow :=
  mkUserRow (plan u) (usage_this_month u) (plan_limits_scrapes u)
    (plan_limits_period u) v (smart_formatting u)
    (billing_date u) (google_provider_token u)
    (google_provider_refresh_token u) (stripe_customer_id u)
    (stripe_subscription_id u) (updated_at u) (other_columns u).

Definition set_smart_formatting (v : bool) (u : UserRow) : UserRow :=
  mkUserRow (plan u) (usage_this_month u) (plan_limits_scrapes u)
    (plan_limits_period u) (subscription_status u) v
    (billing_date u) (google_provider_token u)
    (google_provider_refresh_token u) (stripe_customer_id u)
    (stripe_subscription_id u) (updated_at u) (other_columns u).

Definition set_billing_date (v : option Date) (u : UserRow) : UserRow :=
  mkUserRow (plan u) (usage_this_month u) (plan_limits_scrapes u)
    (plan_limits_period u) (subscription_status u) (smart_formatting u)
    v (google_provider_token u)
    (google_provider_refresh_token u) (stripe_customer_id u)
    (stripe_subscription_id u) (updated_at u) (other_columns u).

Definition set_google_provider_token (v : option string) (u : UserRow)
  : UserRow :=
  mkUserRow (plan u) (usage_this_month u) (plan_limits_scrapes u)
    (plan_limits_period u) (subscription_status u) (smart_formatting u)
    (billing_date u) v
    (google_provider_refresh_token u) (stripe_customer_id u)
    (stripe_subscription_id u) (updated_at u) (other_columns u).

Definition set_stripe_subscription_id (v : option string) (u : UserRow)
  : UserRow :=
  mkUserRow (plan u) (usage_this_month u) (plan_limits_scrapes u)
    (plan_limits_period u) (subscription_status u) (smart_formatting u)
    (billing_date u) (google_provider_token u)
    (google_provider_refresh_token u) (stripe_customer_id u)
    v (updated_at u) (other_columns u).

Definition set_updated_at (v : Date) (u : UserRow) : UserRow :=
  mkUserRow (plan u) (usage_this_month u) (plan_limits_scrapes u)
    (plan_limits_period u) (subscription_status u) (smart_formatting u)
    (billing_date u) (google_provider_token u)
    (google_provider_refresh_token u) (stripe_customer_id u)
    (stripe_subscription_id u) v (other_columns u).

(** The [users] table: rows by primary key. *)
Abbreviation Users := (gmap string UserRow).

(** ** utils/usage.js: [getEffectiveLimit] *)

(** [user.subscription_status === 'past_due' ? 5 : user.plan_limits_scrapes] *)
Definition getEffectiveLimit (user : UserRow) : Z :=
  if String.eqb (subscription_status user) "past_due" then 5
  else plan_limits_scrapes user.

(** ** The atomic quota ledger: [increment_usage_if_allowed] *)

Module Ledger.

(** The range of the SQL type [int]; PostgreSQL raises
    [integer out of range] when [+] leaves it. *)
Definition int4_min : Z := -2147483648.
Definition int4_max : Z := 2147483647.

Definition int4 (z : Z) : Prop := int4_min <= z <= int4_max.

Definition int4_add (a b : Z) : option Z :=
  let r := a + b in
  if (int4_min <=? r) && (r <=? int4_max) then Some r else None.

(** The single row of [RETURNS TABLE(allowed, new_usage, effective_limit,
    plan, subscription_status)].  The last two columns carry a prefix here
    because [UserRow] already owns their names. *)
Record UsageResult := mkUsageResult {
  allowed : bool;
  new_usage : Z;
  effective_limit : Z;
  res_plan : string;
  res_subscription_status : string
}.

(** What a call of the function gives its caller: the row it returns, or
    the error it raises (the transaction is then rolled back). *)
Inductive Outcome :=
  | Returned (r : UsageResult)
  | Raised (msg : string).

(** The function body, statement by statement.  The row lock taken by
    [SELECT ... FOR UPDATE] is what makes the whole body one indivisible
    step on the table; the step is this function. *)
Definition increment_usage_if_allowed
    (now : Date) (p_user_id : string) (users : Users) : Outcome * Users :=
  (* SELECT ... INTO v_usage, v_limit, v_plan, v_status ... FOR UPDATE *)
  match users !! p_user_id with
  | None =>
      (* IF NOT FOUND *)
      (Returned (mkUsageResult false 0 0 "FREE" "none"), users)
  | Some u =>
      let v_usage := usage_this_month u in
      let v_limit := plan_limits_scrapes u in
      let v_plan := plan u in
      let v_status := subscription_status u in
      (* IF v_status = 'past_due' THEN v_limit := 5 *)
      let v_limit := if String.eqb v_status "past_due" then 5 else v_limit in
      (* IF v_usage >= v_limit *)
      if v_limit <=? v_usage then
        (Returned (mkUsageResult false v_usage v_limit v_plan v_status), users)
      else
        (* UPDATE users SET usage_this_month = usage_this_month + 1,
                            updated_at = now() WHERE id = p_user_id *)
        match int4_add (usage_this_month u) 1 with
        | None => (Raised "integer out of range", users)
        | Some n =>
            let u' := set_updated_at now (set_usage_this_month n u) in
            let users' := <[p_user_id := u']> users in
            (* RETURNING usage_this_month, plan_limits_scrapes, plan,
                         subscription_status
               INTO v_usage, v_limit, v_plan, v_status *)
            let v_usage := usage_this_month u' in
            let v_limit := plan_limits_scrapes u' in
            let v_plan := plan u' in
            let v_status := subscription_status u' in
            (Returned (mkUsageResult true v_usage v_limit v_plan v_status),
             users')
        end
  end.

(** [allowed] as the caller reads it off the outcome. *)
Definition is_allowed (o : Outcome) : bool :=
  match o with
  | Returned r => allowed r
  | Raised _ => false
  end.

(** A sequence of calls on one account, one after the other as the row
    lock orders them; each call has its own [now()]. *)
Fixpoint tryConsume_seq (nows : list Date) (p_user_id : string)
    (users : Users) : list Outcome * Users :=
  match nows with
  | [] => ([], users)
  | now :: rest =>
      let '(o, users1) := increment_usage_if_allowed now p_user_id users in
      let '(os, users2) := tryConsume_seq rest p_user_id users1 in
      (o :: os, users2)
  end.

Definition count_allowed (os : list Outcome) : Z :=
  Z.of_nat (length (filter (fun o => is_allowed o = true) os)).

Definition usage_of (p_user_id : string) (users : Users) : option Z :=
  usage_this_month <$> users !! p_user_id.

End Ledger.

(** ** Completions of JavaScript calls *)

(** A call returns normally or throws (an [async] function: its promise
    resolves or rejects). *)
Inductive Completion (A : Type) :=
  | Normal (a : A)
  | Throw (e : string).
Arguments Normal {A} a.
Arguments Throw {A} e.

(** Code that reads and writes a state [S] and may throw.  What was written
    before a throw stays written. *)
Definition Js (S A : Type) : Type := S -> Completion A * S.

#[global] Instance Js_ret {S} : MRet (Js S) :=
  fun A (a : A) (s : S) => (Normal a, s).

#[global] Instance Js_bind {S} : MBind (Js S) :=
  fun A B (k : A -> Js S B) (c : Js S A) (s : S) =>
    match c s with
    | (Normal a, s') => k a s'
    | (Throw e, s') => (Throw e, s')
    end.

Definition throw {S A} (e : string) : Js S A := fun s => (Throw e, s).

(** [try { body } catch (error) { handler }] *)
Definition try_catch {S A} (body : Js S A) (handler : string -> Js S A)
  : Js S A :=
  fun s =>
    match body s with
    | (Normal a, s') => (Normal a, s')
    | (Throw e, s') => handler e s'
    end.

(** An optional string as the operand of [if (...)], [!] or [||]:
    [undefined], [null] and the empty string are falsy.  The result is the
    string when it is truthy. *)
Definition truthy_string (o : option string) : option string :=
  match o with
  | Some s => if String.eqb s "" then None else Some s
  | None => None
  end.

(** ** services/redis-service.js: the shared store *)

(** A string held under a profile key, represented by what the reader
    makes of it: [if (data)] tests it for emptiness and [JSON.parse] either
    rebuilds the profile that [JSON.stringify] wrote or throws. *)
Inductive CachedString :=
  | EmptyStr
  | Json (u : UserRow)
  | Malformed (s : string).

Record RedisEntry := mkRedisEntry {
  entry_value : CachedString;
  EX : option Z
}.

(** The node-redis client: [isOpen], the keys the server holds, and the
    fate of the commands still to be sent: the head of [faults] says
    whether the next command is rejected (a lost connection, a server
    error); an empty list means no command fails any more. *)
Record RedisClient := mkRedisClient {
  isOpen : bool;
  faults : list bool;
  store : gmap string RedisEntry
}.

(** [let redisClient = null], assigned only when [REDIS_URL] is set and
    [createClient] did not throw. *)
Abbreviation RedisHandle := (option RedisClient).

(** [redisClient !== null && redisClient.isOpen] *)
Definition isRedisConnected (redisClient : RedisHandle) : bool :=
  match redisClient with
  | None => false
  | Some c => isOpen c
  end.

(** Sending one command: [run] answers it on the keys when the server
    takes it. *)
Definition redis_command {A}
    (run : gmap string RedisEntry -> A * gmap string RedisEntry)
  : Js RedisHandle A :=
  fun h =>
    match h with
    | None => (Throw "TypeError", h)
    | Some c =>
        match faults c with
        | true :: later =>
            (Throw "RedisError", Some (mkRedisClient (isOpen c) later (store c)))
        | _ =>
            let '(a, st) := run (store c) in
            (Normal a, Some (mkRedisClient (isOpen c) (tail (faults c)) st))
        end
    end.

Definition redis_get (key : string) : Js RedisHandle (option CachedString) :=
  redis_command (fun st => (entry_value <$> st !! key, st)).

Definition redis_set (key : string) (v : CachedString) (ex : Z)
  : Js RedisHandle unit :=
  redis_command (fun st => (tt, <[key := mkRedisEntry v (Some ex)]> st)).

Definition redis_del (key : string) : Js RedisHandle unit :=
  redis_command (fun st => (tt, delete key st)).

(** ** services/user-cache-service.js: the profile cache *)

Definition USER_CACHE_PREFIX : string := "user:profile:".
Definition CACHE_TTL : Z := 3600.

Definition JSON_parse {S} (data : CachedString) : Js S (option UserRow) :=
  match data with
  | Json u => mret (Some u)
  | EmptyStr | Malformed _ => throw "SyntaxError"
  end.

Definition JSON_stringify (userData : UserRow) : CachedString := Json userData.

(** JavaScript truthiness of a string. *)
Definition truthy (data : CachedString) : bool :=
  match data with
  | EmptyStr => false
  | _ => true
  end.

Definition getCachedUser (userId : string) : Js RedisHandle (option UserRow) :=
  fun h =>
    if negb (isRedisConnected h) then (Normal None, h)
    else
      try_catch
        (data ← redis_get (USER_CACHE_PREFIX +:+ userId);
         match data with
         | Some d => if truthy d then JSON_parse d else mret None
         | None => mret None
         end)
        (fun _ => mret None) h.

Definition setCachedUser (userId : string) (userData : UserRow)
  : Js RedisHandle unit :=
  fun h =>
    if negb (isRedisConnected h) then (Normal tt, h)
    else
      try_catch
        (redis_set (USER_CACHE_PREFIX +:+ userId)
           (JSON_stringify userData) CACHE_TTL)
        (fun _ => mret tt) h.

Definition invalidateUserCache (userId : string) : Js RedisHandle unit :=
  fun h =>
    if negb (isRedisConnected h) then (Normal tt, h)
    else
      try_catch
        (redis_del (USER_CACHE_PREFIX +:+ userId))
        (fun _ => mret tt) h.

(** ** The two stores a request handler works on *)

(** The table is taken to be reachable: a Supabase call answers, and the
    [error] it can answer with is the one of [.single()] on no row.  Calls
    of the logger are left out of every handler. *)

Record World := mkWorld {
  users : Users;
  redisClient : RedisHandle
}.

(** A cache call made from a handler. *)
Definition on_cache {A} (c : Js RedisHandle A) : Js World A :=
  fun w =>
    let '(r, h) := c (redisClient w) in
    (r, mkWorld (users w) h).

(** [supabase.from('users').update(data).eq('id', id)]: it never throws,
    and changes nothing when no row has the id. *)
Definition db_update (id : string) (data : UserRow -> UserRow)
  : Js World unit :=
  fun w => (Normal tt, mkWorld (alter data id (users w)) (redisClient w)).

(** [supabase.from('users').delete().eq('id', id)] *)
Definition db_delete (id : string) : Js World unit :=
  fun w => (Normal tt, mkWorld (delete id (users w)) (redisClient w)).

(** [supabase.from('users').select(...).eq('id', id).single()] *)
Definition db_select (id : string) : Js World (option UserRow) :=
  fun w => (Normal (users w !! id), w).

(** [.select('id').eq('stripe_subscription_id', sid).single()]: the id of
    the one row with that subscription, [None] when there is none or more
    than one. *)
Definition db_select_by_subscription (sid : string)
  : Js World (option string) :=
  fun w =>
    match map_to_list
            (filter (fun kv => stripe_subscription_id kv.2 = Some sid)
               (users w)) with
    | [(id, _)] => (Normal (Some id), w)
    | _ => (Normal None, w)
    end.

(** [supabase.rpc('increment_usage_if_allowed', { p_user_id })] *)
Definition rpc_increment_usage_if_allowed (now : Date) (p_user_id : string)
  : Js World Ledger.Outcome :=
  fun w =>
    let '(o, us) :=
      Ledger.increment_usage_if_allowed now p_user_id (users w) in
    (Normal o, mkWorld us (redisClient w)).

(** The part of a JSON reply the properties below look at. *)
Record Reply := mkReply {
  code : Z;
  usage_body : option (Z * Z)
}.

(** ** utils/usage.js: [resetMonthlyUsageIfNeeded] *)

(** The [user] object is changed in place; the changed object is the
    result. *)
Definition resetMonthlyUsageIfNeeded (now : Date) (user : UserRow)
    (userId : string) : Js World UserRow :=
  match billing_date user with
  | None => mret user
  | Some billingDate =>
      let monthsSince :=
        (getFullYear now - getFullYear billingDate) * 12
        + (getMonth now - getMonth billingDate) in
      if 1 <=? monthsSince then
        _ ← db_update userId
              (fun r => set_updated_at now
                          (set_billing_date (Some now)
                             (set_usage_this_month 0 r)));
        mret (set_billing_date (Some now) (set_usage_this_month 0 user))
      else mret user
  end.

(** ** middleware/auth.js: [requireAuth], from the verified principal on *)

(** [inl code]: the reply that ends the request; [inr user]: [req.user]. *)
Definition requireAuth (authUserId : string) : Js World (Z + UserRow) :=
  try_catch
    (fullUser ← on_cache (getCachedUser authUserId);
     match fullUser with
     | Some u => mret (inr u)
     | None =>
         dbUser ← db_select authUserId;
         match dbUser with
         | None => mret (inl 404)
         | Some u =>
             _ ← on_cache (setCachedUser authUserId u);
             mret (inr u)
         end
     end)
    (fun _ => mret (inl 500)).

(** ** routes/scrape.js: POST /api/scrape *)

(** [extraction]: what [extractData] does for this request, a number of
    items or a thrown error; an error goes to [next(err)], answered with
    500 by the error handler of server.js. *)
Definition scrape_post (now : Date) (userId : string) (user : UserRow)
    (extraction : Completion Z) : Js World Reply :=
  try_catch
    (user ← resetMonthlyUsageIfNeeded now user userId;
     let effectiveLimit := getEffectiveLimit user in
     let limitReached := effectiveLimit <=? usage_this_month user in
     if limitReached then
       mret (mkReply 403 (Some (usage_this_month user, effectiveLimit)))
     else
       match extraction with
       | Throw e => throw e
       | Normal _ =>
           mret (mkReply 200 (Some (usage_this_month user, effectiveLimit)))
       end)
    (fun _ => mret (mkReply 500 None)).

(** ** routes/user.js *)

(** PATCH /api/user/settings; [smart_formatting] is [Some b] when the body
    holds a boolean under that name. *)
Definition patch_settings (now : Date) (userId : string)
    (smart_formatting : option bool) : Js World Reply :=
  try_catch
    (let updateData := fun r =>
       let r := set_updated_at now r in
       match smart_formatting with
       | Some b => set_smart_formatting b r
       | None => r
       end in
     _ ← db_update userId updateData;
     data ← db_select userId;
     match data with
     | None => mret (mkReply 500 None)
     | Some _ =>
         _ ← on_cache (invalidateUserCache userId);
         mret (mkReply 200 None)
     end)
    (fun _ => mret (mkReply 500 None)).

(** DELETE /api/user/delete-account; the two flags say whether the
    [activities] deletion and [auth.admin.deleteUser] succeed. *)
Definition delete_account (userId : string)
    (activitiesOk authDeleteOk : bool) : Js World Reply :=
  try_catch
    (if negb activitiesOk then mret (mkReply 500 None)
     else
       _ ← db_delete userId;
       if negb authDeleteOk then mret (mkReply 500 None)
       else
         _ ← on_cache (invalidateUserCache userId);
         mret (mkReply 200 None))
    (fun _ => mret (mkReply 500 None)).

(** ** routes/sheets.js *)

(** [refreshGoogleToken]; [tokens] is the access token Google answers
    with, [None] when the answer is not [ok]. *)
Definition refreshGoogleToken (now : Date) (userId : string)
    (tokens : option string) : Js World string :=
  user ← db_select userId;
  match truthy_string (user ≫= google_provider_refresh_token) with
  | None => throw "No Google refresh token available. Please sign in again."
  | Some _ =>
      match tokens with
      | None => throw "Failed to refresh Google token. Please sign in again."
      | Some newAccessToken =>
          _ ← db_update userId
                (fun r => set_updated_at now
                            (set_google_provider_token
                               (Some newAccessToken) r));
          _ ← on_cache (invalidateUserCache userId);
          mret newAccessToken
      end
  end.

(** [haystack.includes(needle)] *)
Fixpoint includes (needle haystack : string) : bool :=
  String.prefix needle haystack
  || match haystack with
     | EmptyString => false
     | String _ rest => includes needle rest
     end.

(** The status the handler's [catch] answers with; an error it does not
    recognise goes to [next(error)], which answers 500. *)
Definition export_error_code (message : string) : Z :=
  if includes "token" message || includes "authenticate" message then 401
  else if includes "Permission denied" message
          || includes "authorized" message then 403
  else if includes "rate limit" message then 429
  else 500.

(** POST /api/sheets/export, after the body has been validated.
    [create1] is what [createSpreadsheet] does with the stored token,
    [tokens] what Google answers to a refresh, [create2] what
    [createSpreadsheet] does with the refreshed token.  Saving the
    activity is left out: its failure is logged and changes nothing. *)
Definition export_post (now : Date) (userId : string) (user : UserRow)
    (create1 : Completion unit) (tokens : option string)
    (create2 : Completion unit) : Js World Reply :=
  try_catch
    (usageResult ← rpc_increment_usage_if_allowed now userId;
     match usageResult with
     | Ledger.Raised _ => mret (mkReply 500 None)
     | Ledger.Returned r =>
         let snapshot :=
           Some (Ledger.new_usage r, Ledger.effective_limit r) in
         if negb (Ledger.allowed r) then mret (mkReply 403 snapshot)
         else
           _ ← on_cache (invalidateUserCache userId);
           match truthy_string (google_provider_token user) with
           | None => mret (mkReply 401 None)
           | Some _ =>
               _ ← match create1 with
                   | Normal _ => mret tt
                   | Throw message =>
                       if includes "expired" message
                          || includes "Invalid" message then
                         _ ← refreshGoogleToken now userId tokens;
                         match create2 with
                         | Normal _ => mret tt
                         | Throw e => throw e
                         end
                       else throw message
                   end;
               mret (mkReply 200 snapshot)
           end
     end)
    (fun error => mret (mkReply (export_error_code error) None)).

(** ** routes/billing.js: POST /api/billing/webhook *)

Record PlanConfig := mkPlanConfig {
  cfg_plan : string;
  scrapes : Z;
  period : string
}.

Definition STARTER_CONFIG : PlanConfig := mkPlanConfig "STARTER" 250 "monthly".
Definition PRO_CONFIG : PlanConfig := mkPlanConfig "PRO" 999999 "monthly".

(** A Stripe event whose signature has been verified, with what the
    handler reads from it; a [planConfig] is the entry [PLAN_CONFIG] has
    for the price of the event's subscription. *)
Inductive StripeEvent :=
  | checkout_session_completed (userId subscriptionId : option string)
      (planConfig : option PlanConfig)
  | customer_subscription_updated (userId : option string) (status : string)
      (planConfig : option PlanConfig)
  | customer_subscription_deleted (userId : option string)
  | invoice_payment_failed (subscriptionId : option string)
  | invoice_paid (subscriptionId : option string) (billing_reason : string)
  | unhandled_event.

Definition webhook (now : Date) (event : StripeEvent) : Js World Reply :=
  _ ← try_catch
        (match event with
         | checkout_session_completed userId subscriptionId planConfig =>
             match truthy_string userId, truthy_string subscriptionId,
                   planConfig with
             | Some userId, Some subscriptionId, Some planConfig =>
                 _ ← db_update userId
                       (fun r =>
                          set_updated_at now
                            (set_billing_date (Some now)
                               (set_usage_this_month 0
                                  (set_subscription_status "active"
                                     (set_stripe_subscription_id
                                        (Some subscriptionId)
                                        (set_plan_limits_period
                                           (period planConfig)
                                           (set_plan_limits_scrapes
                                              (scrapes planConfig)
                                              (set_plan (cfg_plan planConfig)
                                                 r))))))));
                 on_cache (invalidateUserCache userId)
             | _, _, _ => mret tt
             end
         | customer_subscription_updated userId status planConfig =>
             match truthy_string userId with
             | Some userId =>
                 let updateData := fun r =>
                   let r := set_updated_at now
                              (set_subscription_status status r) in
                   match planConfig with
                   | Some c =>
                       set_plan_limits_period (period c)
                         (set_plan_limits_scrapes (scrapes c)
                            (set_plan (cfg_plan c) r))
                   | None => r
                   end in
                 _ ← db_update userId updateData;
                 on_cache (invalidateUserCache userId)
             | None => mret tt
             end
         | customer_subscription_deleted userId =>
             match truthy_string userId with
             | Some userId =>
                 _ ← db_update userId
                       (fun r =>
                          set_updated_at now
                            (set_subscription_status "canceled"
                               (set_stripe_subscription_id None
                                  (set_plan_limits_period "monthly"
                                     (set_plan_limits_scrapes 5
                                        (set_plan "FREE" r))))));
                 on_cache (invalidateUserCache userId)
             | None => mret tt
             end
         | invoice_payment_failed subscriptionId =>
             match truthy_string subscriptionId with
             | Some subscriptionId =>
                 user ← db_select_by_subscription subscriptionId;
                 match user with
                 | Some id =>
                     _ ← db_update id
                           (fun r => set_updated_at now
                                       (set_subscription_status "past_due" r));
                     on_cache (invalidateUserCache id)
                 | None => mret tt
                 end
             | None => mret tt
             end
         | invoice_paid subscriptionId billing_reason =>
             match truthy_string subscriptionId with
             | Some subscriptionId =>
                 if String.eqb billing_reason "subscription_cycle" then
                   user ← db_select_by_subscription subscriptionId;
                   match user with
                   | Some id =>
                       _ ← db_update id
                             (fun r =>
                                set_updated_at now
                                  (set_billing_date (Some now)
                                     (set_subscription_status "active"
                                        (set_usage_this_month 0 r))));
                       on_cache (invalidateUserCache id)
                   | None => mret tt
                   end
                 else mret tt
             | None => mret tt
             end
         | unhandled_event => mret tt
         end)
        (fun _ => mret tt);
  mret (mkReply 200 None).

(** ** middleware/rate-limit.js *)

Module RateLimit.

(** What the limiters read of an Express request.  An optional field is
    [None] when JavaScript would find [undefined] or [null] there. *)
Record Request := mkRequest {
  user_id : option string;          (* req.user?.id *)
  x_forwarded_for : option string;  (* req.headers['x-forwarded-for'] *)
  ip : option string;               (* req.ip *)
  remoteAddress : option string;    (* req.connection.remoteAddress *)
  path : string                     (* req.path *)
}.

(** [s.split(',')[0]] *)
Fixpoint first_of_split (s : string) : string :=
  match s with
  | EmptyString => EmptyString
  | String c rest =>
      if Ascii.eqb c "," then EmptyString else String c (first_of_split rest)
  end.

(** The white space [trim] removes, among the characters of a header
    line: tab, line feed, vertical tab, form feed, carriage return,
    space. *)
Definition is_space (c : ascii) : bool :=
  let n := nat_of_ascii c in
  ((9 <=? n) && (n <=? 13))%nat || (n =? 32)%nat.

Fixpoint trimStart (s : string) : string :=
  match s with
  | EmptyString => EmptyString
  | String c rest => if is_space c then trimStart rest else s
  end.

Fixpoint trimEnd (s : string) : string :=
  match s with
  | EmptyString => EmptyString
  | String c rest =>
      match trimEnd rest with
      | EmptyString => if is_space c then EmptyString else String c EmptyString
      | t => String c t
      end
  end.

Definition trim (s : string) : string := trimEnd (trimStart s).

Definition getClientIp (req : Request) : string :=
  match truthy_string (x_forwarded_for req) with
  | Some forwarded => trim (first_of_split forwarded)
  | None =>
      match truthy_string (ip req) with
      | Some a => a
      | None =>
          match truthy_string (remoteAddress req) with
          | Some a => a
          | None => "unknown"
          end
      end
  end.

Definition keyGenerator (req : Request) : string :=
  match truthy_string (user_id req) with
  | Some id => "user:" +:+ id
  | None => "ip:" +:+ getClientIp req
  end.

(** The options a limiter is built from.  [keyGenerator_of] is [None]
    where the options name no [keyGenerator]; express-rate-limit then uses
    its own. *)
Record Limiter := mkLimiter {
  prefix : string;
  windowMs : Z;
  max : Z;
  keyGenerator_of : option (Request -> string);
  skipSuccessfulRequests : bool;
  skip : Request -> bool
}.

Definition generalLimiter : Limiter :=
  mkLimiter "rl:gen:" (60 * 1000) 200 (Some keyGenerator) false
    (fun req => String.eqb (path req) "/health").

Definition authLimiter : Limiter :=
  mkLimiter "rl:auth:" (15 * 60 * 1000) 20 None true (fun _ => false).

Definition scrapeLimiter : Limiter :=
  mkLimiter "rl:scrape:" (60 * 1000) 30 (Some keyGenerator) false
    (fun _ => false).

Definition sheetsLimiter : Limiter :=
  mkLimiter "rl:sheets:" (60 * 1000) 60 (Some keyGenerator) false
    (fun _ => false).



End RateLimit.

(** ** server.js: GET /health *)

Module Health.







End Health.

(** ** middleware/auth.js and routes/auth.js: the credential *)

Module Auth.

(** What [supabase.auth.getUser(token)] answers: [{ data: { user }, error }],
    the user by its id. *)
Record GetUserAnswer := mkGetUserAnswer {
  error : bool;
  authUser : option string
}.




Definition set_google_provider_refresh_token (v : option string)
    (u : UserRow) : UserRow :=
  mkUserRow (plan u) (usage_this_month u) (plan_limits_scrapes u)
    (plan_limits_period u) (subscription_status u) (smart_formatting u)
    (billing_date u) (google_provider_token u)
    v (stripe_customer_id u)
    (stripe_subscription_id u) (updated_at u) (other_columns u).

(** The row POST /api/auth/callback inserts for a principal it has not
    seen; [created_at] goes to the columns kept by name. *)
Definition new_user_row (toISOString : Date -> string) (now : Date)
    (providerToken providerRefreshToken : option string) : UserRow :=
  mkUserRow "FREE" 0 5 "monthly" "none" true None
    providerToken providerRefreshToken None None now
    {[ "created_at" := toISOString now ]}.

(** POST /api/auth/callback, from the tokens read off the redirect URL.
    The reply carries [usage_this_month] and [plan_limits_scrapes] of the
    row. *)
Definition callback (toISOString : Date -> string) (now : Date)
    (accessToken providerToken providerRefreshToken : option string)
    (getUser : string -> Completion GetUserAnswer) : Js World Reply :=
  try_catch
    (match truthy_string accessToken with
     | None => mret (mkReply 400 None)
     | Some accessToken =>
         match getUser accessToken with
         | Throw e => throw e
         | Normal answer =>
             match (if error answer then None else authUser answer) with
             | None => mret (mkReply 401 None)
             | Some id =>
                 existingUser ← db_select id;
                 dbUser ←
                   match existingUser with
                   | None =>
                       let newUser :=
                         new_user_row toISOString now providerToken
                           providerRefreshToken in
                       fun w =>
                         (Normal newUser,
                          mkWorld (<[id := newUser]> (users w))
                            (redisClient w))
                   | Some existingUser =>
                       let updateData := fun r =>
                         let r := set_updated_at now r in
                         let r :=
                           match truthy_string providerToken with
                           | Some t => set_google_provider_token (Some t) r
                           | None => r
                           end in
                         match truthy_string providerRefreshToken with
                         | Some t =>
                             set_google_provider_refresh_token (Some t) r
                         | None => r
                         end in
                       _ ← db_update id updateData;
                       mret (updateData existingUser)
                   end;
                 mret (mkReply 200
                         (Some (usage_this_month dbUser,
                                plan_limits_scrapes dbUser)))
             end
         end
     end)
    (fun _ => mret (mkReply 500 None)).

End Auth.

(** ** server.js: the CORS origin check *)

Module Cors.

Record Env := mkEnv {
  FRONTEND_URL : option string;
  NODE_ENV : option string;
  EXTENSION_ID : option string
}.

(** [[FRONTEND_URL, 'http://localhost:3000', 'http://localhost:5173']
     .filter(Boolean)] *)
Definition allowedOrigins (env : Env) : list string :=
  omap truthy_string
    [FRONTEND_URL env; Some "http://localhost:3000";
     Some "http://localhost:5173"].

(** [true]: [callback(null, true)]; [false]: [callback(new Error(...))]. *)
Definition origin_allowed (env : Env) (origin : option string) : bool :=
  match truthy_string origin with
  | None => true
  | Some origin =>
      if bool_decide (origin ∈ allowedOrigins env) then true
      else if String.prefix "chrome-extension://" origin then
        match NODE_ENV env, truthy_string (EXTENSION_ID env) with
        | Some mode, Some id =>
            if String.eqb mode "production" then
              String.eqb origin ("chrome-extension://" +:+ id)
            else true
        | _, _ => true
        end
      else false
  end.

End Cors.

(** ** services/ai-extractor.js: retries and the item cap *)

Module Extractor.

Definition isRetryable (message : string) : bool :=
  includes "timeout" message || includes "rate limit" message
  || includes "503" message || includes "429" message.

(** [Math.min(1000 * Math.pow(2, retryCount), 5000)] *)
Definition retry_delay (retryCount : nat) : Z :=
  Z.min (1000 * 2 ^ Z.of_nat retryCount) 5000.

(** [callGemini(prompt, model, retryCount)].  [attempt n] is what the
    [n]-th call of the model comes to: the parsed array, or the error of
    the call, of its timeout or of [safeParseJson].  [retriesLeft] is
    [MAX_RETRIES - retryCount], so that [retryCount < MAX_RETRIES] is
    [retriesLeft] not being zero.  The result comes with the delays slept
    before the retries, in order. *)
Fixpoint callGemini_from {A} (retriesLeft : nat)
    (attempt : nat -> Completion A) (retryCount : nat)
  : Completion A * list Z :=
  match attempt retryCount with
  | Normal parsed => (Normal parsed, [])
  | Throw message =>
      match retriesLeft with
      | O => (Throw message, [])
      | S fewer =>
          if isRetryable message then
            let delay := retry_delay retryCount in
            let '(r, delays) := callGemini_from fewer attempt (S retryCount) in
            (r, delay :: delays)
          else (Throw message, [])
      end
  end.

Definition callGemini {A} (MAX_RETRIES : nat)
    (attempt : nat -> Completion A) : Completion A * list Z :=
  callGemini_from MAX_RETRIES attempt 0.

(** [array.slice(0, end)] *)
Definition slice0 {A} (end_ : Z) (l : list A) : list A :=
  if end_ <? 0 then take (Z.to_nat (Z.of_nat (length l) + end_)) l
  else take (Z.to_nat end_) l.

(** [extractData]; [maxItems] is [None] when the request names none. *)
Definition extractData {A} (MAX_ITEMS : Z) (MAX_RETRIES : nat)
    (maxItems : option Z) (attempt : nat -> Completion (list A))
  : Completion (list A) :=
  let itemCap :=
    Z.min (match maxItems with
           | Some m => if m =? 0 then MAX_ITEMS else m
           | None => MAX_ITEMS
           end) MAX_ITEMS in
  match (callGemini MAX_RETRIES attempt).1 with
  | Normal data => Normal (slice0 itemCap data)
  | Throw e => Throw e
  end.

End Extractor.

(** ** The CSV field and the sheet grid *)

Module Table.

Section Objects.

(** The values of the extracted objects, with what [dataTo2DArray] asks
    of a value: whether it is [null] or [undefined], and the string
    [String(value)] (or [JSON.stringify] for an object) makes of it. *)
Context {V : Type}.
Variable nullish : V -> bool.
Variable String_of : V -> string.

(** An object, as its own properties in the order of [Object.keys]. *)
Definition Obj : Type := list (string * V).

(** [obj[key]] *)
Fixpoint get (obj : Obj) (key : string) : option V :=
  match obj with
  | [] => None
  | (k, v) :: rest => if String.eqb k key then Some v else get rest key
  end.

(** The double quote and the line feed. *)
Definition dquote : ascii := "034"%char.
Definition newline : ascii := "010"%char.

(** [str.replace(/\x22/g, ...)]: every double quote written twice. *)
Fixpoint double_quotes (str : string) : string :=
  match str with
  | EmptyString => EmptyString
  | String c rest =>
      if Ascii.eqb c dquote then String dquote (String dquote (double_quotes rest))
      else String c (double_quotes rest)
  end.

(** [escapeCSVField], on [String(field)]; [None] is [null] or
    [undefined]. *)
Definition escapeCSVField (field : option string) : string :=
  match field with
  | None => ""
  | Some str =>
      if includes "," str || includes (String dquote "") str
         || includes (String newline "") str
      then String dquote (double_quotes str +:+ String dquote "")
      else str
  end.

(** [allKeys.add(key)] on a [Set] kept in insertion order. *)
Definition set_add (keys : list string) (key : string) : list string :=
  if bool_decide (key ∈ keys) then keys else keys ++ [key].

(** The keys of all the objects, each once, in the order they first
    appear. *)
Definition allKeys (data : list Obj) : list string :=
  fold_left (fun keys row => fold_left set_add (map fst row) keys) data [].

(** [dataTo2DArray]; [None] is a [data] that is [null] or [undefined]. *)
Definition dataTo2DArray (data : option (list Obj)) : list (list string) :=
  match data with
  | None | Some [] => [[]]
  | Some data =>
      let headers := allKeys data in
      let rows :=
        map (fun obj =>
               map (fun header =>
                      match get obj header with
                      | None => ""
                      | Some value =>
                          if nullish value then "" else String_of value
                      end)
                 headers)
          data in
      headers :: rows
  end.

End Objects.

End Table.

(** ** Vocabulary of the statements *)

(** The two [int] columns of a row hold values of their SQL type. *)
Definition well_typed (u : UserRow) : Prop :=
  Ledger.int4 (usage_this_month u) /\ Ledger.int4 (plan_limits_scrapes u).

(** Two rows agree on every column but [usage_this_month] and
    [updated_at]. *)
Definition same_but_usage_and_updated_at (u u' : UserRow) : Prop :=
  plan u' = plan u
  /\ plan_limits_scrapes u' = plan_limits_scrapes u
  /\ plan_limits_period u' = plan_limits_period u
  /\ subscription_status u' = subscription_status u
  /\ smart_formatting u' = smart_formatting u
  /\ billing_date u' = billing_date u
  /\ google_provider_token u' = google_provider_token u
  /\ google_provider_refresh_token u' = google_provider_refresh_token u
  /\ stripe_customer_id u' = stripe_customer_id u
  /\ stripe_subscription_id u' = stripe_subscription_id u
  /\ other_columns u' = other_columns u.

(** Sample data used by the closed examples. *)
Definition t0 : Date := mkDate 2026 1 1770000000000.
Definition t1 : Date := mkDate 2026 1 1770000001000.

Definition sample_row (p : string) (usage limit : Z) (st : string) : UserRow :=
  mkUserRow p usage limit "monthly" st true None None None None None t0 ∅.

(** No command is going to fail. *)
Definition fault_free (h : RedisHandle) : Prop :=
  match h with
  | Some c => faults c = []
  | None => True
  end.

(** The account of the closed examples on the cache: a FREE account at
    its limit whose billing period began three months before [t1], and a
    world whose cache holds its profile. *)
Definition last_period : Date := mkDate 2025 10 1762000000000.

Definition stale_row : UserRow :=
  mkUserRow "FREE" 5 5 "monthly" "none" true (Some last_period)
    (Some "ya29.token") (Some "1//refresh") None None last_period ∅.

Definition subscribed_world (fs : list bool) : World :=
  mkWorld {[ "acct" := set_stripe_subscription_id (Some "sub_1") stale_row ]}
    (Some (mkRedisClient true fs
             {[ "user:profile:acct" := mkRedisEntry (Json stale_row) (Some 3600) ]})).

Definition cached_world (fs : list bool) : World :=
  mkWorld {[ "acct" := stale_row ]}
    (Some (mkRedisClient true fs
             {[ "user:profile:acct" := mkRedisEntry (Json stale_row) (Some 3600) ]})).


(** A request field that JavaScript finds truthy: there, and not the
    empty string. *)
Definition present (o : option string) (s : string) : Prop :=
  o = Some s /\ s <> "".

Definition missing (o : option string) : Prop :=
  o = None \/ o = Some "".








(** A schedule of calls on any accounts, in the order the row locks let
    them through; each outcome is kept with the account it was for. *)
Fixpoint run_schedule (calls : list (string * Date)) (users : Users)
  : list (string * Ledger.Outcome) * Users :=
  match calls with
  | [] => ([], users)
  | (uid, now) :: rest =>
      let '(o, users1) := Ledger.increment_usage_if_allowed now uid users in
      let '(os, users2) := run_schedule rest users1 in
      ((uid, o) :: os, users2)
  end.

(** The calls of a schedule that are for [uid], and the grants among the
    outcomes that are for [uid]. *)
Definition calls_for (uid : string) (calls : list (string * Date)) : Z :=
  Z.of_nat (length (filter (fun c => c.1 = uid) calls)).

Definition grants_for (uid : string) (os : list (string * Ledger.Outcome))
  : Z :=
  Ledger.count_allowed (snd <$> filter (fun o => o.1 = uid) os).

(** The row of an account after one call on it. *)
Definition row_after_call (now : Date) (u : UserRow) : UserRow :=
  if getEffectiveLimit u <=? usage_this_month u then u
  else
    match Ledger.int4_add (usage_this_month u) 1 with
    | Some n => set_updated_at now (set_usage_this_month n u)
    | None => u
    end.

(** The profile the shared store holds for a user: what a read that
    reaches the server and parses would give. *)
Definition cached_profile (h : RedisHandle) (userId : string)
  : option UserRow :=
  match h with
  | Some c =>
      match store c !! (USER_CACHE_PREFIX +:+ userId) with
      | Some (mkRedisEntry (Json u) _) => Some u
      | _ => None
      end
  | None => None
  end.

(** The whole calendar months from a billing date to [now], as
    [resetMonthlyUsageIfNeeded] counts them. *)
Definition monthsSince (billingDate now : Date) : Z :=
  (getFullYear now - getFullYear billingDate) * 12
  + (getMonth now - getMonth billingDate).

(** The billing period of a profile has not rolled over at [now]. *)
Definition in_period (now : Date) (u : UserRow) : Prop :=
  match billing_date u with
  | None => True
  | Some billingDate => monthsSince billingDate now < 1
  end.

(** The four limiters of the application. *)
Definition limiters : list RateLimit.Limiter :=
  [RateLimit.generalLimiter; RateLimit.authLimiter; RateLimit.scrapeLimiter;
   RateLimit.sheetsLimiter].

Fixpoint has_char (c : ascii) (s : string) : bool :=
  match s with
  | EmptyString => false
  | String d rest => Ascii.eqb d c || has_char c rest
  end.

(** Two rows agree on everything but the Google tokens and
    [updated_at]. *)
Definition same_account_state (u u' : UserRow) : Prop :=
  plan u' = plan u
  /\ usage_this_month u' = usage_this_month u
  /\ plan_limits_scrapes u' = plan_limits_scrapes u
  /\ plan_limits_period u' = plan_limits_period u
  /\ subscription_status u' = subscription_status u
  /\ smart_formatting u' = smart_formatting u
  /\ billing_date u' = billing_date u
  /\ stripe_customer_id u' = stripe_customer_id u
  /\ stripe_subscription_id u' = stripe_subscription_id u
  /\ other_columns u' = other_columns u.

(** ** The atomic quota ledger: properties *)

Section LedgerProperties.

Import Ledger.

Implicit Types (users : Users) (u : UserRow) (now : Date) (uid : string).

(** Decide the integer comparison the goal branches on. *)
Ltac case_leb :=
  match goal with
  | |- context [?a <=? ?b] => destruct (Z.leb_spec0 a b)
  end.

Lemma int4_add_one (a b : Z) :
  int4 a -> a < b -> b <= int4_max -> int4_add a 1 = Some (a + 1).
Proof.
  unfold int4, int4_add, int4_min, int4_max. intros [Hlo Hhi] Hab Hb.
  replace ((-2147483648 <=? a + 1) && (a + 1 <=? 2147483647)) with true;
    [reflexivity|].
  symmetry. apply andb_true_iff. split; apply Z.leb_le; lia.
Qed.

Lemma effective_limit_bounds u :
  well_typed u -> getEffectiveLimit u <= int4_max.
Proof.
  intros [_ [_ Hhi]]. unfold getEffectiveLimit.
  destruct (String.eqb _ _); [unfold int4_max; lia | exact Hhi].
Qed.

(** The limit the function compares against is [getEffectiveLimit]. *)
Lemma increment_denied users uid u now :
  users !! uid = Some u ->
  getEffectiveLimit u <= usage_this_month u ->
  increment_usage_if_allowed now uid users
  = (Returned (mkUsageResult false (usage_this_month u) (getEffectiveLimit u)
                 (plan u) (subscription_status u)), users).
Proof.
  intros Hu Hle. unfold increment_usage_if_allowed, getEffectiveLimit in *.
  rewrite Hu. cbn zeta.
  destruct (String.eqb (subscription_status u) "past_due"); case_leb;
    first [reflexivity | lia].
Qed.

Lemma increment_granted users uid u now :
  users !! uid = Some u ->
  well_typed u ->
  usage_this_month u < getEffectiveLimit u ->
  increment_usage_if_allowed now uid users
  = (Returned (mkUsageResult true (usage_this_month u + 1)
                 (plan_limits_scrapes u) (plan u) (subscription_status u)),
     <[uid := set_updated_at now
                (set_usage_this_month (usage_this_month u + 1) u)]> users).
Proof.
  intros Hu Hwt Hlt.
  pose proof (effective_limit_bounds u Hwt) as Hb.
  pose proof (int4_add_one _ _ (proj1 Hwt) Hlt Hb) as Hadd.
  unfold increment_usage_if_allowed, getEffectiveLimit in *.
  rewrite Hu. cbn zeta.
  destruct (String.eqb (subscription_status u) "past_due"); case_leb;
    first [lia | rewrite Hadd; reflexivity].
Qed.

Lemma increment_not_found users uid now :
  users !! uid = None ->
  increment_usage_if_allowed now uid users
  = (Returned (mkUsageResult false 0 0 "FREE" "none"), users).
Proof.
  intros Hu. unfold increment_usage_if_allowed. rewrite Hu. reflexivity.
Qed.

(** The closed examples run on a table with the one account ["acct"]. *)
Lemma single_account_lookup u :
  ({[ "acct" := u ]} : Users) !! "acct" = Some u.
Proof. apply lookup_singleton_eq. Qed.

Lemma ghost_lookup u :
  ({[ "acct" := u ]} : Users) !! "ghost" = None.
Proof. apply lookup_singleton_ne. discriminate. Qed.

Lemma sample_row_typed (p st : string) (usage limit : Z) :
  int4 usage -> int4 limit -> well_typed (sample_row p usage limit st).
Proof. intros Hu Hl. split; assumption. Qed.

Lemma int4_small (z : Z) : 0 <= z <= 999999 -> int4 z.
Proof. unfold int4, int4_min, int4_max. lia. Qed.

(** A granted call leaves the effective limit and the typing of the row
    as they were. *)
Lemma granted_row_limit u now :
  getEffectiveLimit
    (set_updated_at now (set_usage_this_month (usage_this_month u + 1) u))
  = getEffectiveLimit u.
Proof. reflexivity. Qed.

Lemma granted_row_typed u now :
  well_typed u ->
  usage_this_month u < getEffectiveLimit u ->
  well_typed
    (set_updated_at now (set_usage_this_month (usage_this_month u + 1) u)).
Proof.
  intros Hwt Hlt. pose proof (effective_limit_bounds u Hwt) as Hb.
  destruct Hwt as [[Hlo Hhi] Hl]. split; [|exact Hl].
  cbn. unfold int4 in *. lia.
Qed.

Lemma count_allowed_cons (o : Outcome) (os : list Outcome) :
  count_allowed (o :: os)
  = (if is_allowed o then 1 else 0) + count_allowed os.
Proof.
  unfold count_allowed. rewrite filter_cons.
  destruct (is_allowed o); case_decide; try congruence; cbn [length]; lia.
Qed.

Lemma tryConsume_seq_cons now (rest : list Date) uid users :
  tryConsume_seq (now :: rest) uid users
  = ((increment_usage_if_allowed now uid users).1
       :: (tryConsume_seq rest uid
             (increment_usage_if_allowed now uid users).2).1,
     (tryConsume_seq rest uid
        (increment_usage_if_allowed now uid users).2).2).
Proof.
  cbn [tryConsume_seq].
  destruct (increment_usage_if_allowed now uid users) as [o users1].
  cbn [fst snd]. destruct (tryConsume_seq rest uid users1). reflexivity.
Qed.

(** C1, as amended.  For an account with usage [U] and effective limit
    [L], a run of [K] calls of [increment_usage_if_allowed] on that account,
    one after the other, grants exactly [min K (max 0 (L - U))] of them and
    leaves the counter at [U + min K (max 0 (L - U))]: nothing is granted,
    and the counter stays at [U], when the account is already over its
    limit. *)
Theorem at_most_N_grants (nows : list Date) users uid u :
  users !! uid = Some u ->
  well_typed u ->
  let U := usage_this_month u in
  let L := getEffectiveLimit u in
  let K := Z.of_nat (length nows) in
  count_allowed (tryConsume_seq nows uid users).1 = Z.min K (Z.max 0 (L - U))
  /\ usage_of uid (tryConsume_seq nows uid users).2
     = Some (U + Z.min K (Z.max 0 (L - U))).
Proof.
  intros Hu Hwt. cbv zeta. revert users u Hu Hwt.
  induction nows as [|now rest IH]; intros users u Hu Hwt.
  - cbn [tryConsume_seq fst snd length]. unfold usage_of. rewrite Hu.
    change (count_allowed []) with 0. cbn [fmap option_fmap option_map].
    change (Z.of_nat 0) with 0. split; [|f_equal]; lia.
  - rewrite tryConsume_seq_cons. cbn [fst snd]. rewrite count_allowed_cons.
    destruct (Z_lt_le_dec (usage_this_month u) (getEffectiveLimit u))
      as [Hlt|Hge].
    + (* granted: the run goes on from usage + 1 under the same limit *)
      rewrite (increment_granted users uid u now Hu Hwt Hlt). cbn [fst snd].
      destruct (IH _ _ (lookup_insert_eq users uid _)
                  (granted_row_typed u now Hwt Hlt)) as [Hc Hf].
      rewrite Hc, Hf, granted_row_limit. cbn [is_allowed allowed].
      change (usage_this_month
                (set_updated_at now
                   (set_usage_this_month (usage_this_month u + 1) u)))
        with (usage_this_month u + 1).
      rewrite length_cons, Nat2Z.inj_succ. split; [|f_equal]; lia.
    + (* denied: the table is as before, and so is the rest of the run *)
      rewrite (increment_denied users uid u now Hu Hge). cbn [fst snd].
      destruct (IH users u Hu Hwt) as [Hc Hf].
      rewrite Hc, Hf. cbn [is_allowed allowed].
      rewrite length_cons, Nat2Z.inj_succ. split; [|f_equal]; lia.
Qed.

(** Fifty calls against limit 10 and usage 7: three grants, final usage
    10. *)
Lemma at_most_N_grants_witness :
  count_allowed
    (tryConsume_seq (replicate 50 t1) "acct"
       {[ "acct" := sample_row "STARTER" 7 10 "active" ]}).1 = 3
  /\ usage_of "acct"
       (tryConsume_seq (replicate 50 t1) "acct"
          {[ "acct" := sample_row "STARTER" 7 10 "active" ]}).2 = Some 10.
Proof.
  exact (at_most_N_grants (replicate 50 t1)
           {[ "acct" := sample_row "STARTER" 7 10 "active" ]} "acct"
           (sample_row "STARTER" 7 10 "active")
           (single_account_lookup _)
           (sample_row_typed "STARTER" "active" 7 10
              (int4_small 7 ltac:(lia)) (int4_small 10 ltac:(lia)))).
Defined.

(** C1, as stated, fails on an account that is over its limit (a PRO
    account with 7 uses whose payment became past due: [U = 7], [L = 5]):
    one call grants nothing and leaves the counter at 7, where the stated
    formula gives [min 1 (5 - 7) = -2] grants and a final counter of 5. *)
Lemma at_most_N_as_stated_fails :
  let u := sample_row "PRO" 7 999999 "past_due" in
  let users := {[ "acct" := u ]} : Users in
  let U := usage_this_month u in
  let L := getEffectiveLimit u in
  let K := Z.of_nat (length [t1]) in
  (U = 7 /\ L = 5 /\ K = 1)
  /\ count_allowed (tryConsume_seq [t1] "acct" users).1 <> Z.min K (L - U)
  /\ usage_of "acct" (tryConsume_seq [t1] "acct" users).2
     <> Some (U + Z.min K (L - U)).
Proof.
  cbv zeta. split; [|split].
  - vm_compute. auto.
  - vm_compute. discriminate.
  - vm_compute. discriminate.
Qed.

(** C2.  One call on an existing account: when the usage has reached
    the effective limit it returns [allowed = false] with [new_usage] the
    unchanged usage and writes nothing; otherwise it returns
    [allowed = true] with [new_usage] the usage plus one, and the stored
    counter is the usage plus one. *)
Theorem single_call_checks_then_increments users uid u now :
  users !! uid = Some u ->
  well_typed u ->
  let U := usage_this_month u in
  let L := getEffectiveLimit u in
  let o := (increment_usage_if_allowed now uid users).1 in
  let users' := (increment_usage_if_allowed now uid users).2 in
  (L <= U ->
     (exists r, o = Returned r /\ allowed r = false /\ new_usage r = U)
     /\ users' = users)
  /\ (U < L ->
        (exists r, o = Returned r /\ allowed r = true /\ new_usage r = U + 1)
        /\ usage_of uid users' = Some (U + 1)).
Proof.
  intros Hu Hwt. cbv zeta. split.
  - intros Hge. rewrite (increment_denied users uid u now Hu Hge).
    cbn [fst snd]. split; [eexists; repeat split | reflexivity].
  - intros Hlt. rewrite (increment_granted users uid u now Hu Hwt Hlt).
    cbn [fst snd]. split; [eexists; repeat split |].
    unfold usage_of. rewrite lookup_insert_eq. reflexivity.
Qed.

Lemma single_call_checks_then_increments_witness :
  let u := sample_row "FREE" 4 5 "none" in
  let users := {[ "acct" := u ]} : Users in
  let U := usage_this_month u in
  let L := getEffectiveLimit u in
  let o := (increment_usage_if_allowed t1 "acct" users).1 in
  let users' := (increment_usage_if_allowed t1 "acct" users).2 in
  (L <= U ->
     (exists r, o = Returned r /\ allowed r = false /\ new_usage r = U)
     /\ users' = users)
  /\ (U < L ->
        (exists r, o = Returned r /\ allowed r = true /\ new_usage r = U + 1)
        /\ usage_of "acct" users' = Some (U + 1)).
Proof.
  exact (single_call_checks_then_increments
           {[ "acct" := sample_row "FREE" 4 5 "none" ]} "acct"
           (sample_row "FREE" 4 5 "none") t1
           (single_account_lookup _)
           (sample_row_typed "FREE" "none" 4 5
              (int4_small 4 ltac:(lia)) (int4_small 5 ltac:(lia)))).
Defined.

(** C3, at the input where the code departs from it.  A past-due PRO
    account with no usage is granted its call, and the row returned
    carries [effective_limit = 999999], the [plan_limits_scrapes] that
    [RETURNING ... INTO v_limit] read back, where the effective limit of
    the account is 5. *)
Theorem granted_past_due_reports_plan_limit :
  let u := sample_row "PRO" 0 999999 "past_due" in
  getEffectiveLimit u = 5
  /\ (increment_usage_if_allowed t1 "acct" {[ "acct" := u ]}).1
     = Returned (mkUsageResult true 1 999999 "PRO" "past_due").
Proof. cbv zeta. split; vm_compute; reflexivity. Qed.

(** C4.  On a past-due account the call is granted exactly when the usage
    is below 5, whatever [plan_limits_scrapes] is; a PRO account with
    limit 999999 and usage 5 is denied, the row returned saying so with
    limit 5. *)
Theorem past_due_enforces_five users uid u now :
  users !! uid = Some u ->
  well_typed u ->
  subscription_status u = "past_due" ->
  getEffectiveLimit u = 5
  /\ is_allowed (increment_usage_if_allowed now uid users).1
     = (usage_this_month u <? 5)
  /\ (plan u = "PRO" -> plan_limits_scrapes u = 999999 ->
      usage_this_month u = 5 ->
      (increment_usage_if_allowed now uid users).1
      = Returned (mkUsageResult false 5 5 "PRO" "past_due")).
Proof.
  intros Hu Hwt Hst.
  assert (HL : getEffectiveLimit u = 5).
  { unfold getEffectiveLimit. rewrite Hst. reflexivity. }
  split; [exact HL|]. split.
  - destruct (Z.ltb_spec0 (usage_this_month u) 5) as [Hlt|Hge].
    + rewrite (increment_granted users uid u now Hu Hwt); [reflexivity|lia].
    + rewrite (increment_denied users uid u now Hu); [reflexivity|lia].
  - intros Hp Hl Hus.
    rewrite (increment_denied users uid u now Hu); [|lia].
    cbn [fst]. rewrite HL, Hus, Hp, Hst. reflexivity.
Qed.

Lemma past_due_enforces_five_witness :
  let u := sample_row "PRO" 5 999999 "past_due" in
  let users := {[ "acct" := u ]} : Users in
  getEffectiveLimit u = 5
  /\ is_allowed (increment_usage_if_allowed t1 "acct" users).1
     = (usage_this_month u <? 5)
  /\ (plan u = "PRO" -> plan_limits_scrapes u = 999999 ->
      usage_this_month u = 5 ->
      (increment_usage_if_allowed t1 "acct" users).1
      = Returned (mkUsageResult false 5 5 "PRO" "past_due")).
Proof.
  exact (past_due_enforces_five
           {[ "acct" := sample_row "PRO" 5 999999 "past_due" ]} "acct"
           (sample_row "PRO" 5 999999 "past_due") t1
           (single_account_lookup _)
           (sample_row_typed "PRO" "past_due" 5 999999
              (int4_small 5 ltac:(lia)) (int4_small 999999 ltac:(lia)))
           eq_refl).
Defined.

(** C5.  For an id that no row has, the call raises nothing: it returns
    [allowed = false, new_usage = 0, effective_limit = 0, plan = 'FREE',
    subscription_status = 'none'], and the table is as it was. *)
Theorem absent_account_is_denied users uid now :
  users !! uid = None ->
  (increment_usage_if_allowed now uid users).1
  = Returned (mkUsageResult false 0 0 "FREE" "none")
  /\ (increment_usage_if_allowed now uid users).2 = users.
Proof.
  intros Hu. rewrite (increment_not_found users uid now Hu).
  split; reflexivity.
Qed.

Lemma absent_account_is_denied_witness :
  (increment_usage_if_allowed t1 "ghost"
     {[ "acct" := sample_row "FREE" 0 5 "none" ]}).1
  = Returned (mkUsageResult false 0 0 "FREE" "none")
  /\ (increment_usage_if_allowed t1 "ghost"
        {[ "acct" := sample_row "FREE" 0 5 "none" ]}).2
     = {[ "acct" := sample_row "FREE" 0 5 "none" ]}.
Proof.
  exact (absent_account_is_denied
           {[ "acct" := sample_row "FREE" 0 5 "none" ]} "ghost" t1
           (ghost_lookup _)).
Defined.

(** C10.  A granted call changes, in the whole table, only
    [usage_this_month] and [updated_at] of the account's row; a call that
    is not granted (limit reached, no such account) leaves the table as it
    was. *)
Theorem increment_frame users uid now :
  let o := (increment_usage_if_allowed now uid users).1 in
  let users' := (increment_usage_if_allowed now uid users).2 in
  (is_allowed o = true ->
     exists u u',
       users !! uid = Some u
       /\ users' !! uid = Some u'
       /\ same_but_usage_and_updated_at u u'
       /\ forall id, id <> uid -> users' !! id = users !! id)
  /\ (is_allowed o = false -> users' = users).
Proof.
  cbv zeta. unfold increment_usage_if_allowed.
  destruct (users !! uid) as [u|] eqn:Hu; cbn zeta.
  2: { cbn. split; [discriminate | reflexivity]. }
  destruct (_ <=? _).
  { cbn. split; [discriminate | reflexivity]. }
  destruct (int4_add (usage_this_month u) 1) as [n|].
  2: { cbn. split; [discriminate | reflexivity]. }
  cbn [fst snd is_allowed allowed]. split; [intros _ | discriminate].
  eexists u, _. split; [reflexivity|]. split; [apply lookup_insert_eq|].
  split; [repeat split |].
  intros id Hne. apply lookup_insert_ne. congruence.
Qed.

Lemma increment_frame_witness :
  let users := {[ "acct" := sample_row "FREE" 4 5 "none" ]} : Users in
  let o := (increment_usage_if_allowed t1 "acct" users).1 in
  let users' := (increment_usage_if_allowed t1 "acct" users).2 in
  (is_allowed o = true ->
     exists u u',
       users !! "acct" = Some u
       /\ users' !! "acct" = Some u'
       /\ same_but_usage_and_updated_at u u'
       /\ forall id, id <> "acct" -> users' !! id = users !! id)
  /\ (is_allowed o = false -> users' = users).
Proof.
  exact (increment_frame {[ "acct" := sample_row "FREE" 4 5 "none" ]}
           "acct" t1).
Defined.

(** X1.  On rows that hold values of their column types the function
    never raises: the increment cannot leave the range of [int], because it
    happens only below a limit that is itself an [int]. *)
Theorem increment_never_raises users uid now :
  (forall u, users !! uid = Some u -> well_typed u) ->
  exists r, (increment_usage_if_allowed now uid users).1 = Returned r.
Proof.
  intros Hwt. destruct (users !! uid) as [u|] eqn:Hu.
  - destruct (Z_lt_le_dec (usage_this_month u) (getEffectiveLimit u))
      as [Hlt|Hge].
    + rewrite (increment_granted users uid u now Hu (Hwt u eq_refl) Hlt).
      eexists. reflexivity.
    + rewrite (increment_denied users uid u now Hu Hge).
      eexists. reflexivity.
  - rewrite (increment_not_found users uid now Hu). eexists. reflexivity.
Qed.

Lemma increment_never_raises_witness :
  exists r,
    (increment_usage_if_allowed t1 "acct"
       {[ "acct" := sample_row "PRO" 2147483646 2147483647 "active" ]}).1
    = Returned r.
Proof.
  apply (increment_never_raises
           {[ "acct" := sample_row "PRO" 2147483646 2147483647 "active" ]}
           "acct" t1).
  intros u Hu. rewrite single_account_lookup in Hu.
  injection Hu as <-. apply sample_row_typed; vm_compute; split; discriminate.
Defined.

(** The [effective_limit] a call reports: the effective limit of the
    account when the call is denied, but the account's
    [plan_limits_scrapes] when it is granted. *)
Lemma reported_limit users uid u now :
  users !! uid = Some u ->
  well_typed u ->
  exists r,
    (increment_usage_if_allowed now uid users).1 = Returned r
    /\ effective_limit r
       = (if allowed r then plan_limits_scrapes u else getEffectiveLimit u)
    /\ allowed r = (usage_this_month u <? getEffectiveLimit u).
Proof.
  intros Hu Hwt.
  destruct (Z.ltb_spec0 (usage_this_month u) (getEffectiveLimit u))
    as [Hlt|Hge].
  - rewrite (increment_granted users uid u now Hu Hwt Hlt).
    eexists. repeat split.
  - rewrite (increment_denied users uid u now Hu); [|lia].
    eexists. repeat split.
Qed.

End LedgerProperties.

(** ** The profile cache: properties *)

Section CacheProperties.

Implicit Types (h : RedisHandle) (c : RedisClient) (userId : string).

Lemma getCachedUser_disconnected h userId :
  isRedisConnected h = false -> getCachedUser userId h = (Normal None, h).
Proof. intros Hd. unfold getCachedUser. rewrite Hd. reflexivity. Qed.

Lemma setCachedUser_disconnected h userId userData :
  isRedisConnected h = false ->
  setCachedUser userId userData h = (Normal tt, h).
Proof. intros Hd. unfold setCachedUser. rewrite Hd. reflexivity. Qed.

Lemma invalidateUserCache_disconnected h userId :
  isRedisConnected h = false ->
  invalidateUserCache userId h = (Normal tt, h).
Proof. intros Hd. unfold invalidateUserCache. rewrite Hd. reflexivity. Qed.

Lemma getCachedUser_returns h userId :
  exists v, (getCachedUser userId h).1 = Normal v.
Proof.
  unfold getCachedUser. destruct (negb (isRedisConnected h)); [eexists; reflexivity|].
  unfold try_catch, mbind, Js_bind, redis_get, redis_command.
  destruct h as [c|]; [|eexists; reflexivity].
  destruct (faults c) as [|[] later]; try (eexists; reflexivity);
    cbn; (destruct (store c !! _) as [[[|u|s] ex]|]; cbn; eexists; reflexivity).
Qed.

Lemma setCachedUser_returns h userId userData :
  (setCachedUser userId userData h).1 = Normal tt.
Proof.
  unfold setCachedUser. destruct (negb (isRedisConnected h)); [reflexivity|].
  unfold try_catch, redis_set, redis_command.
  destruct h as [c|]; [|reflexivity].
  destruct (faults c) as [|[] later]; reflexivity.
Qed.

Lemma invalidateUserCache_returns h userId :
  (invalidateUserCache userId h).1 = Normal tt.
Proof.
  unfold invalidateUserCache. destruct (negb (isRedisConnected h)); [reflexivity|].
  unfold try_catch, redis_del, redis_command.
  destruct h as [c|]; [|reflexivity].
  destruct (faults c) as [|[] later]; reflexivity.
Qed.

(** C7.  While the shared store is not connected, [getCachedUser] answers
    absent and [setCachedUser] / [invalidateUserCache] do nothing; and in
    every state of the store, rejected commands included, each of the
    three returns normally to its caller. *)
Theorem cache_never_fails_its_caller h userId userData :
  (isRedisConnected h = false ->
     getCachedUser userId h = (Normal None, h)
     /\ setCachedUser userId userData h = (Normal tt, h)
     /\ invalidateUserCache userId h = (Normal tt, h))
  /\ (exists v, (getCachedUser userId h).1 = Normal v)
  /\ (setCachedUser userId userData h).1 = Normal tt
  /\ (invalidateUserCache userId h).1 = Normal tt.
Proof.
  split; [intros Hd; split; [|split] | split; [|split]].
  - exact (getCachedUser_disconnected h userId Hd).
  - exact (setCachedUser_disconnected h userId userData Hd).
  - exact (invalidateUserCache_disconnected h userId Hd).
  - exact (getCachedUser_returns h userId).
  - exact (setCachedUser_returns h userId userData).
  - exact (invalidateUserCache_returns h userId).
Qed.

(** A closed client that still holds a profile: the read answers absent
    and the two writes leave the client as it is. *)
Lemma cache_never_fails_its_caller_witness :
  let h := Some (mkRedisClient false [true]
                   {[ "user:profile:acct" := mkRedisEntry (Json stale_row) (Some 3600) ]}) in
  (isRedisConnected h = false ->
     getCachedUser "acct" h = (Normal None, h)
     /\ setCachedUser "acct" stale_row h = (Normal tt, h)
     /\ invalidateUserCache "acct" h = (Normal tt, h))
  /\ (exists v, (getCachedUser "acct" h).1 = Normal v)
  /\ (setCachedUser "acct" stale_row h).1 = Normal tt
  /\ (invalidateUserCache "acct" h).1 = Normal tt.
Proof.
  exact (cache_never_fails_its_caller
           (Some (mkRedisClient false [true]
                    {[ "user:profile:acct" := mkRedisEntry (Json stale_row) (Some 3600) ]}))
           "acct" stale_row).
Defined.

End CacheProperties.

(** ** Cache invalidation on the mutation paths *)

Section InvalidationProperties.

Implicit Types (h : RedisHandle) (w : World) (userId : string) (now : Date).

Lemma truthy_string_present (o : option string) (s : string) :
  present o s -> truthy_string o = Some s.
Proof.
  intros [-> Hne]. cbn. destruct (String.eqb_spec s ""); congruence.
Qed.

Lemma truthy_string_missing (o : option string) :
  missing o -> truthy_string o = None.
Proof. intros [-> | ->]; reflexivity. Qed.

Lemma invalidate_keeps_fault_free h userId :
  fault_free h -> fault_free (invalidateUserCache userId h).2.
Proof.
  destruct h as [c|]; [|intros _; exact I]. cbn. intros Hf.
  unfold invalidateUserCache. cbn. destruct (isOpen c); cbn; [|exact Hf].
  unfold try_catch, redis_del, redis_command. rewrite Hf. reflexivity.
Qed.

(** Once the server has taken the [DEL], the next read of the key finds
    nothing. *)
Lemma invalidate_then_absent h userId :
  fault_free h ->
  (getCachedUser userId (invalidateUserCache userId h).2).1 = Normal None.
Proof.
  destruct h as [c|]; [|intros _; reflexivity]. cbn. intros Hf.
  unfold invalidateUserCache. cbn. destruct (isOpen c) eqn:Ho; cbn.
  - unfold try_catch, redis_del, redis_command. rewrite Hf. cbn.
    unfold getCachedUser. cbn. rewrite Ho. cbn.
    unfold try_catch, mbind, Js_bind, redis_get, redis_command. cbn.
    rewrite lookup_delete_eq. reflexivity.
  - unfold getCachedUser. cbn. rewrite Ho. reflexivity.
Qed.

Lemma on_cache_invalidate w userId :
  on_cache (invalidateUserCache userId) w
  = (Normal tt,
     mkWorld (users w) (invalidateUserCache userId (redisClient w)).2).
Proof.
  unfold on_cache.
  pose proof (invalidateUserCache_returns (redisClient w) userId) as Hr.
  destruct (invalidateUserCache userId (redisClient w)) as [r h'].
  cbn in Hr. subst r. reflexivity.
Qed.

(** [resetMonthlyUsageIfNeeded] sends the cache nothing. *)
Lemma reset_keeps_cache now user userId w :
  redisClient (resetMonthlyUsageIfNeeded now user userId w).2 = redisClient w.
Proof.
  unfold resetMonthlyUsageIfNeeded.
  destruct (billing_date user) as [d|]; [|reflexivity].
  destruct (_ <=? _); reflexivity.
Qed.

(** POST /api/scrape leaves the cache as it found it, whatever it wrote
    to the table. *)
Lemma scrape_post_keeps_cache now userId user extraction w :
  redisClient (scrape_post now userId user extraction w).2 = redisClient w.
Proof.
  unfold scrape_post, try_catch, mbind, Js_bind.
  pose proof (reset_keeps_cache now user userId w) as Hk.
  destruct (resetMonthlyUsageIfNeeded now user userId w) as [[u'|e] w1];
    cbn [snd] in Hk; [|exact Hk].
  destruct (_ <=? _); [exact Hk|].
  destruct extraction; exact Hk.
Qed.

(** The plumbing of a handler body, unfolded up to its cache calls. *)
Ltac run_handler :=
  unfold try_catch, mbind, Js_bind, mret, Js_ret, throw, db_update,
    db_select, db_delete, rpc_increment_usage_if_allowed;
  cbn beta iota delta [fst snd users redisClient].

Ltac absent_after_invalidate :=
  cbn [fst snd users redisClient];
  first
    [ apply invalidate_then_absent; assumption
    | apply invalidate_then_absent, invalidate_keeps_fault_free; assumption ].

(** X2.  PATCH /api/user/settings: when it answers 200 and the server
    takes the [DEL], the profile is gone from the cache. *)
Lemma patch_settings_invalidates now userId (sf : option bool) w :
  fault_free (redisClient w) ->
  (patch_settings now userId sf w).1 = Normal (mkReply 200 None) ->
  (getCachedUser userId
     (redisClient (patch_settings now userId sf w).2)).1 = Normal None.
Proof.
  intros Hf. unfold patch_settings. run_handler.
  destruct (alter _ userId (users w) !! userId); [|cbn; discriminate].
  rewrite on_cache_invalidate. intros _. absent_after_invalidate.
Qed.

(** X4.  [refreshGoogleToken]: when it returns a token, the profile is
    gone from the cache. *)
Lemma refreshGoogleToken_invalidates now userId tokens w tok :
  fault_free (redisClient w) ->
  (refreshGoogleToken now userId tokens w).1 = Normal tok ->
  (getCachedUser userId
     (redisClient (refreshGoogleToken now userId tokens w).2)).1
  = Normal None.
Proof.
  intros Hf. unfold refreshGoogleToken. run_handler.
  destruct (truthy_string _); [|cbn; discriminate].
  destruct tokens; [|cbn; discriminate].
  run_handler. rewrite on_cache_invalidate. intros _.
  absent_after_invalidate.
Qed.

(** X3.  POST /api/sheets/export: when the ledger grants the call, the
    profile is gone from the cache by the time the handler answers,
    whatever it answers. *)
Lemma export_post_invalidates now userId user create1 tokens create2 w :
  fault_free (redisClient w) ->
  Ledger.is_allowed
    (Ledger.increment_usage_if_allowed now userId (users w)).1 = true ->
  (getCachedUser userId
     (redisClient
        (export_post now userId user create1 tokens create2 w).2)).1
  = Normal None.
Proof.
  intros Hf. unfold export_post. run_handler.
  destruct (Ledger.increment_usage_if_allowed now userId (users w))
    as [[r|msg] us]; cbn [fst Ledger.is_allowed]; [|discriminate].
  intros ->. cbn [negb]. rewrite on_cache_invalidate.
  destruct (truthy_string (google_provider_token user));
    [|absent_after_invalidate].
  destruct create1 as [[]|message]; [absent_after_invalidate|].
  destruct (includes "expired" message || includes "Invalid" message);
    [|absent_after_invalidate].
  unfold refreshGoogleToken. run_handler.
  destruct (truthy_string _); [|absent_after_invalidate].
  destruct tokens; [|absent_after_invalidate].
  run_handler. rewrite on_cache_invalidate.
  destruct create2; absent_after_invalidate.
Qed.

(** X5.  DELETE /api/user/delete-account: when it answers 200, the row
    and the cached profile are both gone. *)
Lemma delete_account_invalidates userId (activitiesOk authDeleteOk : bool) w :
  fault_free (redisClient w) ->
  (delete_account userId activitiesOk authDeleteOk w).1
  = Normal (mkReply 200 None) ->
  users (delete_account userId activitiesOk authDeleteOk w).2 !! userId = None
  /\ (getCachedUser userId
        (redisClient (delete_account userId activitiesOk authDeleteOk w).2)).1
     = Normal None.
Proof.
  intros Hf. unfold delete_account. run_handler.
  destruct activitiesOk; [|cbn; discriminate].
  destruct authDeleteOk; [|cbn; discriminate].
  cbn [negb]. run_handler. rewrite on_cache_invalidate. intros _.
  split; [apply lookup_delete_eq | absent_after_invalidate].
Qed.

(** X6.  The webhook events that change the plan of the account they
    name: the profile is gone from the cache when the handler answers. *)
Lemma webhook_plan_change_invalidates now userId w event :
  fault_free (redisClient w) ->
  (exists uf sf sid cfg,
     event = checkout_session_completed uf sf (Some cfg)
     /\ present uf userId /\ present sf sid)
  \/ (exists uf status cfg,
        event = customer_subscription_updated uf status cfg
        /\ present uf userId)
  \/ (exists uf,
        event = customer_subscription_deleted uf /\ present uf userId) ->
  (getCachedUser userId (redisClient (webhook now event w).2)).1
  = Normal None.
Proof.
  intros Hf
    [(uf & sf & sid & cfg & -> & Hu & Hs)
    |[(uf & status & cfg & -> & Hu)|(uf & -> & Hu)]];
    unfold webhook; rewrite (truthy_string_present _ _ Hu);
    rewrite ?(truthy_string_present _ _ Hs);
    run_handler; rewrite on_cache_invalidate; absent_after_invalidate.
Qed.

(** X7.  The invoice events, which find the account by its
    subscription: payment failure, and the renewal that resets the usage. *)
Lemma webhook_invoice_invalidates now sf sid id w event :
  fault_free (redisClient w) ->
  present sf sid ->
  (db_select_by_subscription sid w).1 = Normal (Some id) ->
  event = invoice_payment_failed sf
  \/ event = invoice_paid sf "subscription_cycle" ->
  (getCachedUser id (redisClient (webhook now event w).2)).1 = Normal None.
Proof.
  intros Hf Hs Hsel [->| ->]; unfold webhook;
    rewrite (truthy_string_present _ _ Hs), ?String.eqb_refl;
    run_handler; unfold db_select_by_subscription in *;
    (destruct (map_to_list _) as [|[id' r] [|]]; cbn in Hsel; try discriminate);
    injection Hsel as ->; run_handler; rewrite on_cache_invalidate;
    absent_after_invalidate.
Qed.

Lemma patch_settings_invalidates_witness :
  (getCachedUser "acct"
     (redisClient
        (patch_settings t1 "acct" (Some false) (cached_world [])).2)).1
  = Normal None.
Proof.
  exact (patch_settings_invalidates t1 "acct" (Some false) (cached_world [])
           eq_refl ltac:(vm_compute; reflexivity)).
Defined.

Lemma refreshGoogleToken_invalidates_witness :
  (getCachedUser "acct"
     (redisClient
        (refreshGoogleToken t1 "acct" (Some "ya29.new") (cached_world [])).2)).1
  = Normal None.
Proof.
  exact (refreshGoogleToken_invalidates t1 "acct" (Some "ya29.new")
           (cached_world []) "ya29.new"
           eq_refl ltac:(vm_compute; reflexivity)).
Defined.

Lemma export_post_invalidates_witness :
  (getCachedUser "acct"
     (redisClient
        (export_post t1 "acct" stale_row (Throw "Token expired")
           (Some "ya29.new") (Normal tt)
           (mkWorld {[ "acct" := sample_row "FREE" 4 5 "none" ]}
              (redisClient (cached_world [])))).2)).1
  = Normal None.
Proof.
  apply export_post_invalidates.
  - reflexivity.
  - vm_compute. reflexivity.
Defined.

Lemma delete_account_invalidates_witness :
  users (delete_account "acct" true true (cached_world [])).2 !! "acct" = None
  /\ (getCachedUser "acct"
        (redisClient (delete_account "acct" true true (cached_world [])).2)).1
     = Normal None.
Proof.
  exact (delete_account_invalidates "acct" true true (cached_world [])
           eq_refl ltac:(vm_compute; reflexivity)).
Defined.

Lemma webhook_plan_change_invalidates_witness :
  (getCachedUser "acct"
     (redisClient
        (webhook t1
           (checkout_session_completed (Some "acct") (Some "sub_1")
              (Some PRO_CONFIG))
           (cached_world [])).2)).1
  = Normal None.
Proof.
  apply webhook_plan_change_invalidates.
  - reflexivity.
  - left. exists (Some "acct"), (Some "sub_1"), "sub_1", PRO_CONFIG.
    repeat split; discriminate.
Defined.

Lemma webhook_invoice_invalidates_witness :
  (getCachedUser "acct"
     (redisClient
        (webhook t1 (invoice_paid (Some "sub_1") "subscription_cycle")
           (subscribed_world [])).2)).1
  = Normal None.
Proof.
  apply (webhook_invoice_invalidates t1 (Some "sub_1") "sub_1" "acct"
           (subscribed_world [])).
  - reflexivity.
  - split; [reflexivity | discriminate].
  - vm_compute. reflexivity.
  - right. reflexivity.
Defined.

(** Account deletion whose [auth.admin.deleteUser] fails: the row is
    gone, the handler answers 500 before it reaches the invalidation, and
    the cached profile stays. *)
Example failed_auth_deletion_keeps_cached_copy :
  (delete_account "acct" true false (cached_world [])).1
  = Normal (mkReply 500 None)
  /\ users (delete_account "acct" true false (cached_world [])).2 !! "acct"
     = None
  /\ (getCachedUser "acct"
        (redisClient (delete_account "acct" true false (cached_world [])).2)).1
     = Normal (Some stale_row).
Proof. repeat split; vm_compute; reflexivity. Qed.

(** The swallowed error: when the server rejects the [DEL], the handler
    still answers 200 and the cached profile stays. *)
Example rejected_invalidation_keeps_cached_copy :
  (patch_settings t1 "acct" (Some false) (cached_world [true])).1
  = Normal (mkReply 200 None)
  /\ (getCachedUser "acct"
        (redisClient
           (patch_settings t1 "acct" (Some false) (cached_world [true])).2)).1
     = Normal (Some stale_row).
Proof. split; vm_compute; reflexivity. Qed.

(** C6, at the input where the code departs from it.  The cache holds
    the profile of an account whose billing period has rolled over.
    [requireAuth] hands that cached profile to POST /api/scrape, whose
    [resetMonthlyUsageIfNeeded] writes [usage_this_month = 0] to the table
    and answers 200 with usage 0; no invalidation follows, and the next
    [getCachedUser] still finds the profile with usage 5. *)
Theorem usage_reset_leaves_cached_copy :
  let w := cached_world [] in
  let w' := (scrape_post t1 "acct" stale_row (Normal 3) w).2 in
  (requireAuth "acct" w).1 = Normal (inr stale_row)
  /\ (scrape_post t1 "acct" stale_row (Normal 3) w).1
     = Normal (mkReply 200 (Some (0, 5)))
  /\ Ledger.usage_of "acct" (users w') = Some 0
  /\ (getCachedUser "acct" (redisClient w')).1 = Normal (Some stale_row)
  /\ usage_this_month stale_row = 5.
Proof. cbv zeta. repeat split; vm_compute; reflexivity. Qed.

End InvalidationProperties.

(** ** The health probe: properties *)

Section HealthProperties.

Import Health.



End HealthProperties.

(** ** The limiter identity: properties *)

Section RateLimitProperties.

Import RateLimit.

Implicit Types (s fwd e : string) (req : Request).

Lemma append_cons (c : ascii) s1 s2 :
  String c s1 +:+ s2 = String c (s1 +:+ s2).
Proof. reflexivity. Qed.

Lemma append_empty s : "" +:+ s = s.
Proof. reflexivity. Qed.








End RateLimitProperties.

(** ** The ledger under interleaving *)

Section LedgerSchedules.

Import Ledger.

Implicit Types (users : Users) (u : UserRow) (now : Date) (uid : string).

(** What a call does to the table: the row of its account goes through
    [row_after_call], every other row stays. *)
Lemma increment_table users uid now :
  (increment_usage_if_allowed now uid users).2
  = alter (row_after_call now) uid users.
Proof.
  apply map_eq. intros k. destruct (decide (k = uid)) as [->|Hne].
  - rewrite lookup_alter_eq. unfold increment_usage_if_allowed.
    destruct (users !! uid) as [u|] eqn:Hu; cbn zeta; [|exact Hu].
    cbn [fmap option_fmap option_map].
    unfold row_after_call, getEffectiveLimit.
    destruct (_ <=? _); [exact Hu|].
    destruct (int4_add (usage_this_month u) 1) as [n|]; cbn [snd];
      [apply lookup_insert_eq | exact Hu].
  - rewrite lookup_alter_ne by congruence.
    unfold increment_usage_if_allowed.
    destruct (users !! uid) as [u|]; cbn zeta; [|reflexivity].
    destruct (_ <=? _); [reflexivity|].
    destruct (int4_add (usage_this_month u) 1) as [n|]; cbn [snd];
      [apply lookup_insert_ne; congruence | reflexivity].
Qed.

(** The outcome of a call is decided by the row of its account alone. *)
Lemma increment_outcome_local users users' uid now :
  users !! uid = users' !! uid ->
  (increment_usage_if_allowed now uid users).1
  = (increment_usage_if_allowed now uid users').1.
Proof.
  intros H. unfold increment_usage_if_allowed. rewrite <- H.
  destruct (users !! uid) as [u|]; cbn zeta; [|reflexivity].
  destruct (_ <=? _); [reflexivity|].
  destruct (int4_add _ _); reflexivity.
Qed.

Lemma increment_other users uid uid' now :
  uid <> uid' ->
  (increment_usage_if_allowed now uid users).2 !! uid' = users !! uid'.
Proof.
  intros Hne. rewrite increment_table, lookup_alter_ne; [reflexivity|].
  congruence.
Qed.

Lemma run_schedule_cons uid now (rest : list (string * Date)) users :
  run_schedule ((uid, now) :: rest) users
  = ((uid, (increment_usage_if_allowed now uid users).1)
       :: (run_schedule rest (increment_usage_if_allowed now uid users).2).1,
     (run_schedule rest (increment_usage_if_allowed now uid users).2).2).
Proof.
  cbn [run_schedule].
  destruct (increment_usage_if_allowed now uid users) as [o users1].
  cbn [fst snd]. destruct (run_schedule rest users1). reflexivity.
Qed.

Lemma grants_for_cons uid uid' (o : Outcome) os :
  grants_for uid ((uid', o) :: os)
  = (if decide (uid' = uid) then if is_allowed o then 1 else 0 else 0)
    + grants_for uid os.
Proof.
  unfold grants_for. rewrite filter_cons. cbn [fst].
  destruct (decide (uid' = uid)).
  - rewrite fmap_cons, count_allowed_cons. reflexivity.
  - lia.
Qed.

Lemma calls_for_cons uid uid' now (calls : list (string * Date)) :
  calls_for uid ((uid', now) :: calls)
  = (if decide (uid' = uid) then 1 else 0) + calls_for uid calls.
Proof.
  unfold calls_for. rewrite filter_cons. cbn [fst].
  destruct (decide (uid' = uid)); [rewrite length_cons|]; lia.
Qed.

(** The grants and the final counter of one account in a schedule of
    calls on any accounts, by induction on the schedule. *)
Lemma schedule_counts (calls : list (string * Date)) :
  forall users uid u,
    users !! uid = Some u ->
    well_typed u ->
    grants_for uid (run_schedule calls users).1
    = Z.min (calls_for uid calls)
        (Z.max 0 (getEffectiveLimit u - usage_this_month u))
    /\ usage_of uid (run_schedule calls users).2
       = Some (usage_this_month u
               + Z.min (calls_for uid calls)
                   (Z.max 0 (getEffectiveLimit u - usage_this_month u))).
Proof.
  induction calls as [|[uid' now] rest IH]; intros users uid u Hu Hwt.
  - cbn [run_schedule fst snd]. unfold usage_of. rewrite Hu.
    change (grants_for uid []) with 0. change (calls_for uid []) with 0.
    cbn [fmap option_fmap option_map]. split; [|f_equal]; lia.
  - rewrite run_schedule_cons. cbn [fst snd].
    rewrite grants_for_cons, calls_for_cons.
    assert (0 <= calls_for uid rest) by (unfold calls_for; lia).
    destruct (decide (uid' = uid)) as [->|Hne].
    + destruct (Z_lt_le_dec (usage_this_month u) (getEffectiveLimit u))
        as [Hlt|Hge].
      * rewrite (increment_granted users uid u now Hu Hwt Hlt). cbn [fst snd].
        destruct (IH _ uid _ (lookup_insert_eq users uid _)
                    (granted_row_typed u now Hwt Hlt)) as [Hc Hf].
        rewrite Hc, Hf, granted_row_limit. cbn [is_allowed allowed].
        change (usage_this_month
                  (set_updated_at now
                     (set_usage_this_month (usage_this_month u + 1) u)))
          with (usage_this_month u + 1).
        split; [|f_equal]; lia.
      * rewrite (increment_denied users uid u now Hu Hge). cbn [fst snd].
        destruct (IH users uid u Hu Hwt) as [Hc Hf].
        rewrite Hc, Hf. cbn [is_allowed allowed]. split; [|f_equal]; lia.
    + assert (Hu' : (increment_usage_if_allowed now uid' users).2 !! uid
                    = Some u)
        by (rewrite increment_other; assumption).
      destruct (IH _ uid u Hu' Hwt) as [Hc Hf].
      rewrite Hc, Hf. split; [|f_equal]; lia.
Qed.

(** X8.  Calls on any accounts, interleaved in any order: an account
    with usage [U] and effective limit [L] on which [K] of the calls fall
    is granted exactly [min K (max 0 (L - U))] of them and ends with the
    counter at [U] plus that, whatever the calls on the other accounts
    are and wherever they fall. *)
Theorem interleaved_grants (calls : list (string * Date)) users uid u :
  users !! uid = Some u ->
  well_typed u ->
  let U := usage_this_month u in
  let L := getEffectiveLimit u in
  let K := calls_for uid calls in
  grants_for uid (run_schedule calls users).1 = Z.min K (Z.max 0 (L - U))
  /\ usage_of uid (run_schedule calls users).2
     = Some (U + Z.min K (Z.max 0 (L - U))).
Proof. intros Hu Hwt. exact (schedule_counts calls users uid u Hu Hwt). Qed.

Lemma interleaved_grants_witness :
  let users : Users :=
    {[ "acct" := sample_row "STARTER" 7 10 "active" ]} in
  let calls :=
    [("acct", t1); ("ghost", t1); ("acct", t1); ("acct", t1); ("ghost", t1);
     ("acct", t1); ("acct", t1)] in
  grants_for "acct" (run_schedule calls users).1 = 3
  /\ usage_of "acct" (run_schedule calls users).2 = Some 10.
Proof.
  exact (interleaved_grants
           [("acct", t1); ("ghost", t1); ("acct", t1); ("acct", t1);
            ("ghost", t1); ("acct", t1); ("acct", t1)]
           {[ "acct" := sample_row "STARTER" 7 10 "active" ]} "acct"
           (sample_row "STARTER" 7 10 "active")
           (single_account_lookup _)
           (sample_row_typed "STARTER" "active" 7 10
              (int4_small 7 ltac:(lia)) (int4_small 10 ltac:(lia)))).
Defined.

(** The counter of an account never goes down in a schedule of
    calls, and never passes the larger of its start and the effective
    limit: an account within its limit stays within it. *)
Lemma usage_stays_within_limit (calls : list (string * Date)) users uid u :
  users !! uid = Some u ->
  well_typed u ->
  exists final,
    usage_of uid (run_schedule calls users).2 = Some final
    /\ usage_this_month u <= final
    /\ final <= Z.max (usage_this_month u) (getEffectiveLimit u)
    /\ (usage_this_month u <= getEffectiveLimit u ->
        final <= getEffectiveLimit u).
Proof.
  intros Hu Hwt.
  destruct (schedule_counts calls users uid u Hu Hwt) as [_ Hf].
  assert (0 <= calls_for uid calls) by (unfold calls_for; lia).
  eexists. split; [exact Hf|]. lia.
Qed.

(** X9.  Two calls on different accounts commute: in either order each
    gets the same outcome and the table ends the same. *)
Theorem calls_on_distinct_accounts_commute users (a b : string) (ta tb : Date) :
  a <> b ->
  let ab1 := increment_usage_if_allowed ta a users in
  let ab2 := increment_usage_if_allowed tb b ab1.2 in
  let ba1 := increment_usage_if_allowed tb b users in
  let ba2 := increment_usage_if_allowed ta a ba1.2 in
  ab1.1 = ba2.1 /\ ab2.1 = ba1.1 /\ ab2.2 = ba2.2.
Proof.
  intros Hne. cbv zeta. split; [|split].
  - apply increment_outcome_local. symmetry. apply increment_other. congruence.
  - apply increment_outcome_local. apply increment_other. exact Hne.
  - rewrite !increment_table. apply map_eq. intros k.
    destruct (decide (k = a)) as [->|Hka]; [|destruct (decide (k = b)) as [->|Hkb]].
    + rewrite lookup_alter_ne, !lookup_alter_eq, lookup_alter_ne by congruence.
      reflexivity.
    + rewrite lookup_alter_eq, lookup_alter_ne, lookup_alter_ne,
        lookup_alter_eq by congruence.
      reflexivity.
    + rewrite !lookup_alter_ne by congruence. reflexivity.
Qed.

Lemma calls_on_distinct_accounts_commute_witness :
  let users : Users :=
    <[ "other" := sample_row "PRO" 5 999999 "past_due" ]>
      {[ "acct" := sample_row "FREE" 4 5 "none" ]} in
  let ab1 := increment_usage_if_allowed t0 "acct" users in
  let ab2 := increment_usage_if_allowed t1 "other" ab1.2 in
  let ba1 := increment_usage_if_allowed t1 "other" users in
  let ba2 := increment_usage_if_allowed t0 "acct" ba1.2 in
  ab1.1 = ba2.1 /\ ab2.1 = ba1.1 /\ ab2.2 = ba2.2.
Proof.
  apply (calls_on_distinct_accounts_commute
           (<[ "other" := sample_row "PRO" 5 999999 "past_due" ]>
              {[ "acct" := sample_row "FREE" 4 5 "none" ]})
           "acct" "other" t0 t1).
  discriminate.
Defined.

End LedgerSchedules.

(** ** The cache as a read replica *)

Section ReadThrough.

Implicit Types (h : RedisHandle) (w : World) (userId : string) (u : UserRow).

Lemma cache_key_inj (a b : string) :
  USER_CACHE_PREFIX +:+ a = USER_CACHE_PREFIX +:+ b -> a = b.
Proof. apply (inj (String.app USER_CACHE_PREFIX)). Qed.

(** A read that no fault disturbs. *)
Lemma getCachedUser_fault_free h userId :
  fault_free h ->
  getCachedUser userId h
  = (Normal (if isRedisConnected h then cached_profile h userId else None), h).
Proof.
  destruct h as [c|]; [|intros _; reflexivity]. cbn. intros Hf.
  unfold getCachedUser. cbn. destruct (isOpen c) eqn:Ho; cbn; [|reflexivity].
  unfold try_catch, mbind, Js_bind, redis_get, redis_command. rewrite Hf.
  cbn. destruct c as [o f st]. cbn in *. subst f.
  destruct (st !! _) as [[[|u|s] ex]|]; reflexivity.
Qed.

(** A write that no fault disturbs, on a connected client. *)
Lemma setCachedUser_fault_free h userId u :
  fault_free h ->
  isRedisConnected h = true ->
  fault_free (setCachedUser userId u h).2
  /\ isRedisConnected (setCachedUser userId u h).2 = true
  /\ forall id,
       cached_profile (setCachedUser userId u h).2 id
       = if decide (id = userId) then Some u else cached_profile h id.
Proof.
  destruct h as [c|]; [|intros _ H; discriminate H]. cbn. intros Hf Ho.
  unfold setCachedUser. cbn. rewrite Ho. cbn.
  unfold try_catch, redis_set, redis_command. rewrite Hf. cbn.
  split; [reflexivity|]. split; [exact Ho|]. intros id.
  case_decide as Hid.
  - subst id. rewrite lookup_insert_eq. reflexivity.
  - rewrite lookup_insert_ne; [reflexivity|].
    intros Hk. apply cache_key_inj in Hk. congruence.
Qed.

Lemma invalidateUserCache_fault_free h userId :
  fault_free h ->
  fault_free (invalidateUserCache userId h).2
  /\ isRedisConnected (invalidateUserCache userId h).2 = isRedisConnected h
  /\ (isRedisConnected h = true ->
      forall id,
        cached_profile (invalidateUserCache userId h).2 id
        = if decide (id = userId) then None else cached_profile h id).
Proof.
  destruct h as [c|].
  2: { intros _. split; [exact I|]. split; [reflexivity|].
       intros H. discriminate H. }
  cbn. intros Hf. unfold invalidateUserCache. cbn.
  destruct (isOpen c) eqn:Ho; cbn.
  2: { split; [exact Hf|]. split; [exact Ho|]. intros H. discriminate H. }
  unfold try_catch, redis_del, redis_command. rewrite Hf. cbn.
  split; [reflexivity|]. split; [exact Ho|]. intros _ id.
  case_decide as Hid.
  - subst id. rewrite lookup_delete_eq. reflexivity.
  - rewrite lookup_delete_ne; [reflexivity|].
    intros Hk. apply cache_key_inj in Hk. congruence.
Qed.

(** X10.  On a connected store that rejects no command, a profile put
    under a user id is what the next get of that id returns, and the get
    of any other id returns what it returned before the put. *)
Theorem cache_put_then_get h userId u :
  fault_free h ->
  isRedisConnected h = true ->
  (getCachedUser userId (setCachedUser userId u h).2).1 = Normal (Some u)
  /\ forall other,
       other <> userId ->
       (getCachedUser other (setCachedUser userId u h).2).1
       = (getCachedUser other h).1.
Proof.
  intros Hf Ho.
  destruct (setCachedUser_fault_free h userId u Hf Ho) as (Hf' & Ho' & Hp).
  split.
  - rewrite (getCachedUser_fault_free _ _ Hf'), Ho'. cbn [fst].
    rewrite Hp. case_decide; congruence.
  - intros other Hne.
    rewrite (getCachedUser_fault_free _ _ Hf'), Ho',
      (getCachedUser_fault_free _ _ Hf), Ho. cbn [fst].
    rewrite Hp. case_decide; congruence.
Qed.

Lemma cache_put_then_get_witness :
  (getCachedUser "acct"
     (setCachedUser "acct" (sample_row "PRO" 1 999999 "active")
        (redisClient (cached_world []))).2).1
  = Normal (Some (sample_row "PRO" 1 999999 "active"))
  /\ forall other,
       other <> "acct" ->
       (getCachedUser other
          (setCachedUser "acct" (sample_row "PRO" 1 999999 "active")
             (redisClient (cached_world []))).2).1
       = (getCachedUser other (redisClient (cached_world []))).1.
Proof.
  apply cache_put_then_get; reflexivity.
Defined.

(** X11.  On a store that rejects no command, invalidating a user id
    leaves the profile of every other id as it was, and invalidating the
    same id a second time changes nothing more. *)
Theorem cache_invalidate_scope h userId :
  fault_free h ->
  (forall other,
     other <> userId ->
     (getCachedUser other (invalidateUserCache userId h).2).1
     = (getCachedUser other h).1)
  /\ (invalidateUserCache userId (invalidateUserCache userId h).2).2
     = (invalidateUserCache userId h).2.
Proof.
  intros Hf. split.
  - intros other Hne.
    destruct (invalidateUserCache_fault_free h userId Hf) as (Hf' & Ho' & Hp).
    rewrite (getCachedUser_fault_free _ _ Hf'), Ho',
      (getCachedUser_fault_free _ _ Hf). cbn [fst].
    destruct (isRedisConnected h) eqn:Ho; [|reflexivity].
    rewrite (Hp eq_refl). case_decide; congruence.
  - destruct h as [c|]; [|reflexivity]. cbn in Hf.
    unfold invalidateUserCache. cbn. destruct (isOpen c) eqn:Ho; cbn.
    + unfold try_catch, redis_del, redis_command. rewrite Hf. cbn.
      rewrite Ho. cbn. rewrite delete_delete_eq. reflexivity.
    + rewrite Ho. reflexivity.
Qed.

Lemma cache_invalidate_scope_witness :
  (forall other,
     other <> "acct" ->
     (getCachedUser other
        (invalidateUserCache "acct" (redisClient (cached_world []))).2).1
     = (getCachedUser other (redisClient (cached_world []))).1)
  /\ (invalidateUserCache "acct"
        (invalidateUserCache "acct" (redisClient (cached_world []))).2).2
     = (invalidateUserCache "acct" (redisClient (cached_world []))).2.
Proof.
  apply cache_invalidate_scope. reflexivity.
Defined.

End ReadThrough.

(** ** The authentication middleware: properties *)

Section AuthProperties.

Import Auth.

Implicit Types (h : RedisHandle) (w : World) (u : UserRow).

Lemma world_eta w : mkWorld (users w) (redisClient w) = w.
Proof. destruct w. reflexivity. Qed.

Lemma on_cache_get w (id : string) :
  fault_free (redisClient w) ->
  on_cache (getCachedUser id) w
  = (Normal (if isRedisConnected (redisClient w)
             then cached_profile (redisClient w) id else None), w).
Proof.
  intros Hf. unfold on_cache.
  rewrite (getCachedUser_fault_free _ _ Hf), world_eta. reflexivity.
Qed.

Lemma on_cache_set w (id : string) u :
  on_cache (setCachedUser id u) w
  = (Normal tt, mkWorld (users w) (setCachedUser id u (redisClient w)).2).
Proof.
  unfold on_cache.
  pose proof (setCachedUser_returns (redisClient w) id u) as Hr.
  destruct (setCachedUser id u (redisClient w)) as [r h'].
  cbn in Hr. subst r. reflexivity.
Qed.


(** X12.  With the shared store not connected, [requireAuth] answers
    from the table alone, the row of the principal or 404 when there is
    none, and leaves both stores as they were. *)
Theorem requireAuth_without_cache (id : string) w :
  isRedisConnected (redisClient w) = false ->
  requireAuth id w
  = (Normal (match users w !! id with
             | Some u => inr u
             | None => inl 404
             end), w).
Proof.
  intros Hd. unfold requireAuth, try_catch, mbind, Js_bind, db_select, on_cache.
  rewrite (getCachedUser_disconnected _ _ Hd). cbn [users redisClient].
  destruct (users w !! id) as [u|]; cbn [users redisClient].
  - rewrite (setCachedUser_disconnected _ _ _ Hd), world_eta. reflexivity.
  - rewrite world_eta. reflexivity.
Qed.

Lemma requireAuth_without_cache_witness :
  let w := mkWorld {[ "acct" := stale_row ]} None in
  requireAuth "acct" w
  = (Normal (match users w !! "acct" with
             | Some u => inr u
             | None => inl 404
             end), w).
Proof.
  exact (requireAuth_without_cache "acct"
           (mkWorld {[ "acct" := stale_row ]} None) eq_refl).
Defined.

(** X13.  Read-through: on a connected store that rejects no command
    and holds no readable profile of the principal, [requireAuth] answers
    with the row of the table, leaves the table as it was, and the next
    [getCachedUser] returns that row. *)
Theorem requireAuth_read_through (id : string) w u :
  fault_free (redisClient w) ->
  isRedisConnected (redisClient w) = true ->
  cached_profile (redisClient w) id = None ->
  users w !! id = Some u ->
  (requireAuth id w).1 = Normal (inr u)
  /\ users (requireAuth id w).2 = users w
  /\ (getCachedUser id (redisClient (requireAuth id w).2)).1
     = Normal (Some u).
Proof.
  intros Hf Ho Hmiss Hu.
  unfold requireAuth, try_catch, mbind, Js_bind, db_select.
  rewrite (on_cache_get w id Hf), Ho, Hmiss, Hu, on_cache_set.
  cbn [fst snd users redisClient]. split; [reflexivity|].
  split; [reflexivity|].
  destruct (setCachedUser_fault_free _ id u Hf Ho) as (Hf' & Ho' & Hp).
  rewrite (getCachedUser_fault_free _ _ Hf'), Ho', Hp. cbn [fst].
  case_decide; congruence.
Qed.

Lemma requireAuth_read_through_witness :
  let w :=
    mkWorld {[ "acct" := stale_row ]}
      (Some (mkRedisClient true []
               {[ "user:profile:acct" := mkRedisEntry (Malformed "{") None ]})) in
  (requireAuth "acct" w).1 = Normal (inr stale_row)
  /\ users (requireAuth "acct" w).2 = users w
  /\ (getCachedUser "acct" (redisClient (requireAuth "acct" w).2)).1
     = Normal (Some stale_row).
Proof.
  apply requireAuth_read_through.
  - reflexivity.
  - reflexivity.
  - vm_compute. reflexivity.
  - apply (single_account_lookup stale_row).
Defined.

(** X14.  A hit is final: when a connected store that rejects no
    command holds a profile of the principal, [requireAuth] answers with
    that profile whatever the table holds, a changed row or none, and
    touches neither store. *)
Theorem requireAuth_hit_skips_table (id : string) h u (table : Users) :
  fault_free h ->
  isRedisConnected h = true ->
  cached_profile h id = Some u ->
  requireAuth id (mkWorld table h) = (Normal (inr u), mkWorld table h).
Proof.
  intros Hf Ho Hhit.
  unfold requireAuth, try_catch, mbind, Js_bind.
  rewrite (on_cache_get (mkWorld table h) id Hf). cbn [redisClient].
  rewrite Ho, Hhit. reflexivity.
Qed.

Lemma requireAuth_hit_skips_table_witness :
  requireAuth "acct" (mkWorld ∅ (redisClient (cached_world [])))
  = (Normal (inr stale_row), mkWorld ∅ (redisClient (cached_world []))).
Proof.
  apply requireAuth_hit_skips_table.
  - reflexivity.
  - reflexivity.
  - vm_compute. reflexivity.
Defined.



End AuthProperties.

(** ** The usage gates of the two routes *)

Section RouteGates.

Implicit Types (w : World) (u user : UserRow) (now : Date) (userId : string).

(** The plumbing of a handler body, unfolded up to its cache calls. *)
Ltac run_handler :=
  unfold try_catch, mbind, Js_bind, mret, Js_ret, throw, db_update,
    db_select, db_delete, rpc_increment_usage_if_allowed;
  cbn beta iota delta [fst snd users redisClient].

Lemma reset_in_period now user userId w :
  in_period now user ->
  resetMonthlyUsageIfNeeded now user userId w = (Normal user, w).
Proof.
  unfold in_period, monthsSince, resetMonthlyUsageIfNeeded.
  destruct (billing_date user) as [d|]; [|reflexivity].
  intros Hlt. destruct (Z.leb_spec0 1
    ((getFullYear now - getFullYear d) * 12 + (getMonth now - getMonth d)));
    [lia | reflexivity].
Qed.

(** What a reset leaves: the profile and the world when one happens. *)
Lemma reset_rolled_over now user userId w d :
  billing_date user = Some d ->
  1 <= monthsSince d now ->
  resetMonthlyUsageIfNeeded now user userId w
  = (Normal (set_billing_date (Some now) (set_usage_this_month 0 user)),
     mkWorld
       (alter (fun r => set_updated_at now
                          (set_billing_date (Some now)
                             (set_usage_this_month 0 r)))
          userId (users w))
       (redisClient w)).
Proof.
  unfold monthsSince, resetMonthlyUsageIfNeeded. intros -> Hge.
  destruct (Z.leb_spec0 1
    ((getFullYear now - getFullYear d) * 12 + (getMonth now - getMonth d)));
    [reflexivity | lia].
Qed.

(** X16.  At most one reset a calendar month: whatever a call of
    [resetMonthlyUsageIfNeeded] did, a second call on the profile it
    returned, at a time of the same year and month, changes neither the
    profile nor the table. *)
Theorem reset_once_a_month now now' user userId w :
  getFullYear now' = getFullYear now ->
  getMonth now' = getMonth now ->
  exists user1 w1,
    resetMonthlyUsageIfNeeded now user userId w = (Normal user1, w1)
    /\ resetMonthlyUsageIfNeeded now' user1 userId w1 = (Normal user1, w1).
Proof.
  intros Hy Hm.
  destruct (billing_date user) as [d|] eqn:Hd.
  - destruct (Z_lt_le_dec (monthsSince d now) 1) as [Hlt|Hge].
    + exists user, w. split.
      * apply reset_in_period. unfold in_period. rewrite Hd. exact Hlt.
      * apply reset_in_period. unfold in_period, monthsSince in *.
        rewrite Hd, Hy, Hm. exact Hlt.
    + eexists _, _. split; [apply (reset_rolled_over _ _ _ _ d Hd Hge)|].
      apply reset_in_period. unfold in_period, monthsSince. cbn.
      rewrite Hy, Hm. lia.
  - exists user, w.
    split; apply reset_in_period; unfold in_period; rewrite Hd; exact I.
Qed.

Lemma reset_once_a_month_witness :
  exists user1 w1,
    resetMonthlyUsageIfNeeded t0 stale_row "acct" (cached_world [])
    = (Normal user1, w1)
    /\ resetMonthlyUsageIfNeeded t1 user1 "acct" w1 = (Normal user1, w1).
Proof.
  apply reset_once_a_month; reflexivity.
Defined.

(** The table after POST /api/scrape: as it was, or with the one row
    reset. *)
Lemma scrape_post_table now userId user extraction w :
  users (scrape_post now userId user extraction w).2 = users w
  \/ users (scrape_post now userId user extraction w).2
     = alter (fun r => set_updated_at now
                         (set_billing_date (Some now)
                            (set_usage_this_month 0 r)))
         userId (users w).
Proof.
  unfold scrape_post, try_catch, mbind, Js_bind.
  destruct (billing_date user) as [d|] eqn:Hd.
  - destruct (Z_lt_le_dec (monthsSince d now) 1) as [Hlt|Hge].
    + rewrite reset_in_period by (unfold in_period; rewrite Hd; exact Hlt).
      left. destruct (_ <=? _); [reflexivity|]. destruct extraction; reflexivity.
    + rewrite (reset_rolled_over _ _ _ _ d Hd Hge).
      right. destruct (_ <=? _); [reflexivity|]. destruct extraction; reflexivity.
  - rewrite reset_in_period by (unfold in_period; rewrite Hd; exact I).
    left. destruct (_ <=? _); [reflexivity|]. destruct extraction; reflexivity.
Qed.

(** X17.  POST /api/scrape decides on the profile it is handed and
    charges nothing: its reply is the same whatever the table and the
    cache hold, it leaves every other row as it was, and the counter of
    the account's own row is afterwards what it was or 0. *)
Theorem scrape_post_reads_snapshot now userId user extraction w :
  (forall w2,
     (scrape_post now userId user extraction w2).1
     = (scrape_post now userId user extraction w).1)
  /\ (forall other,
        other <> userId ->
        users (scrape_post now userId user extraction w).2 !! other
        = users w !! other)
  /\ (Ledger.usage_of userId
        (users (scrape_post now userId user extraction w).2)
      = Ledger.usage_of userId (users w)
      \/ Ledger.usage_of userId
           (users (scrape_post now userId user extraction w).2)
         = Some 0).
Proof.
  split; [|split].
  - intros w2. unfold scrape_post, try_catch, mbind, Js_bind.
    destruct (billing_date user) as [d|] eqn:Hd.
    + destruct (Z_lt_le_dec (monthsSince d now) 1) as [Hlt|Hge].
      * rewrite !reset_in_period by (unfold in_period; rewrite Hd; exact Hlt).
        destruct (_ <=? _); [reflexivity|]. destruct extraction; reflexivity.
      * rewrite !(reset_rolled_over _ _ _ _ d Hd Hge).
        destruct (_ <=? _); [reflexivity|]. destruct extraction; reflexivity.
    + rewrite !reset_in_period by (unfold in_period; rewrite Hd; exact I).
      destruct (_ <=? _); [reflexivity|]. destruct extraction; reflexivity.
  - intros other Hne.
    destruct (scrape_post_table now userId user extraction w) as [-> | ->];
      [reflexivity|]. apply lookup_alter_ne. congruence.
  - destruct (scrape_post_table now userId user extraction w) as [-> | ->];
      [left; reflexivity|].
    unfold Ledger.usage_of. rewrite lookup_alter_eq.
    destruct (users w !! userId); [right|left]; reflexivity.
Qed.



(** X19.  POST /api/sheets/export charges once and does not refund: for
    an account below its effective limit the counter of its row is one
    higher after the handler, whatever becomes of the spreadsheet (a
    missing Google token, a failed creation, a failed refresh), and every
    other row is as it was; for an account at or over its limit the reply
    is 403 with the usage and the effective limit, and nothing is
    written. *)
Theorem export_post_charges_once now userId user u create1 tokens create2 w :
  users w !! userId = Some u ->
  well_typed u ->
  let after := export_post now userId user create1 tokens create2 w in
  (usage_this_month u < getEffectiveLimit u ->
     Ledger.usage_of userId (users after.2) = Some (usage_this_month u + 1)
     /\ forall other,
          other <> userId -> users after.2 !! other = users w !! other)
  /\ (getEffectiveLimit u <= usage_this_month u ->
      after
      = (Normal (mkReply 403
                   (Some (usage_this_month u, getEffectiveLimit u))), w)).
Proof.
  intros Hu Hwt. cbv zeta. split.
  - intros Hlt. unfold export_post. run_handler.
    rewrite (increment_granted (users w) userId u now Hu Hwt Hlt).
    cbn [Ledger.allowed negb]. rewrite on_cache_invalidate.
    set (row1 := set_updated_at now
                   (set_usage_this_month (usage_this_month u + 1) u)).
    assert (Hbase :
      Ledger.usage_of userId (<[userId := row1]> (users w))
      = Some (usage_this_month u + 1)
      /\ forall other, other <> userId ->
           <[userId := row1]> (users w) !! other = users w !! other).
    { split.
      - unfold Ledger.usage_of. rewrite lookup_insert_eq. reflexivity.
      - intros other Hne. apply lookup_insert_ne. congruence. }
    destruct (truthy_string (google_provider_token user)); [|exact Hbase].
    destruct create1 as [[]|message]; [exact Hbase|].
    destruct (includes "expired" message || includes "Invalid" message);
      [|exact Hbase].
    unfold refreshGoogleToken. run_handler.
    destruct (truthy_string _); [|exact Hbase].
    destruct tokens as [tok|]; [|exact Hbase].
    run_handler. rewrite on_cache_invalidate.
    assert (Hrefreshed :
      Ledger.usage_of userId
        (alter (fun r => set_updated_at now
                           (set_google_provider_token (Some tok) r))
           userId (<[userId := row1]> (users w)))
      = Some (usage_this_month u + 1)
      /\ forall other, other <> userId ->
           alter (fun r => set_updated_at now
                             (set_google_provider_token (Some tok) r))
             userId (<[userId := row1]> (users w)) !! other
           = users w !! other).
    { split.
      - unfold Ledger.usage_of.
        rewrite lookup_alter_eq, lookup_insert_eq. reflexivity.
      - intros other Hne. rewrite lookup_alter_ne by congruence.
        apply lookup_insert_ne. congruence. }
    destruct create2; exact Hrefreshed.
  - intros Hge. unfold export_post. run_handler.
    rewrite (increment_denied (users w) userId u now Hu Hge).
    cbn [Ledger.allowed negb Ledger.new_usage Ledger.effective_limit].
    rewrite world_eta. reflexivity.
Qed.

Lemma export_post_charges_once_witness :
  let w := mkWorld {[ "acct" := sample_row "FREE" 4 5 "none" ]} None in
  let u := sample_row "FREE" 4 5 "none" in
  let after :=
    export_post t1 "acct" stale_row (Throw "Token expired") None (Normal tt)
      w in
  (usage_this_month u < getEffectiveLimit u ->
     Ledger.usage_of "acct" (users after.2) = Some (usage_this_month u + 1)
     /\ forall other,
          other <> "acct" -> users after.2 !! other = users w !! other)
  /\ (getEffectiveLimit u <= usage_this_month u ->
      after
      = (Normal (mkReply 403
                   (Some (usage_this_month u, getEffectiveLimit u))), w)).
Proof.
  apply (export_post_charges_once t1 "acct" stale_row
           (sample_row "FREE" 4 5 "none") (Throw "Token expired") None
           (Normal tt)
           (mkWorld {[ "acct" := sample_row "FREE" 4 5 "none" ]} None)).
  - apply (single_account_lookup (sample_row "FREE" 4 5 "none")).
  - apply sample_row_typed; apply int4_small; lia.
Defined.

End RouteGates.

(** ** The billing webhook: properties *)

Section WebhookProperties.

Implicit Types (w : World) (u : UserRow) (now : Date) (event : StripeEvent).

Ltac run_handler :=
  unfold try_catch, mbind, Js_bind, mret, Js_ret, throw, db_update,
    db_select, db_delete, rpc_increment_usage_if_allowed;
  cbn beta iota delta [fst snd users redisClient].

Lemma db_select_by_subscription_world (sid : string) w :
  (db_select_by_subscription sid w).2 = w.
Proof.
  unfold db_select_by_subscription.
  destruct (map_to_list _) as [|[id r] [|]]; reflexivity.
Qed.

Lemma db_select_by_subscription_returns (sid : string) w :
  exists found, db_select_by_subscription sid w = (Normal found, w).
Proof.
  unfold db_select_by_subscription.
  destruct (map_to_list _) as [|[id r] [|]]; eexists; reflexivity.
Qed.

Lemma alter_nothing (table : Users) (id : string) :
  alter (fun r => r) id table = table.
Proof. apply alter_id. reflexivity. Qed.

(** The webhook answers 200, and what it does to the table is to rewrite
    at most one row in place. *)
Lemma webhook_table now event w :
  (webhook now event w).1 = Normal (mkReply 200 None)
  /\ exists f id, users (webhook now event w).2 = alter f id (users w).
Proof.
  assert (Hnone : exists (f : UserRow -> UserRow) (id : string),
                    users w = alter f id (users w)).
  { exists (fun r => r), "". symmetry. apply alter_nothing. }
  destruct event as [uf sf cfg|uf status cfg|uf|sf|sf reason|];
    unfold webhook.
  - destruct (truthy_string uf) as [id|]; [|run_handler; auto].
    destruct (truthy_string sf) as [sid|]; [|run_handler; auto].
    destruct cfg as [cfg|]; [|run_handler; auto].
    run_handler. rewrite on_cache_invalidate. cbn. eauto.
  - destruct (truthy_string uf) as [id|]; [|run_handler; auto].
    run_handler. rewrite on_cache_invalidate. cbn. eauto.
  - destruct (truthy_string uf) as [id|]; [|run_handler; auto].
    run_handler. rewrite on_cache_invalidate. cbn. eauto.
  - destruct (truthy_string sf) as [sid|]; [|run_handler; auto].
    run_handler.
    destruct (db_select_by_subscription_returns sid w) as [[id|] ->];
      [|cbn; auto].
    run_handler. rewrite on_cache_invalidate. cbn. eauto.
  - destruct (truthy_string sf) as [sid|]; [|run_handler; auto].
    destruct (String.eqb reason "subscription_cycle"); [|run_handler; auto].
    run_handler.
    destruct (db_select_by_subscription_returns sid w) as [[id|] ->];
      [|cbn; auto].
    run_handler. rewrite on_cache_invalidate. cbn. eauto.
  - run_handler. auto.
Qed.

(** X20.  Whatever the event, the webhook answers 200, creates and
    deletes no row of the table, and changes at most one. *)
Theorem webhook_footprint now event w :
  (webhook now event w).1 = Normal (mkReply 200 None)
  /\ dom (users (webhook now event w).2) = dom (users w)
  /\ forall k1 k2 : string,
       users (webhook now event w).2 !! k1 <> users w !! k1 ->
       users (webhook now event w).2 !! k2 <> users w !! k2 ->
       k1 = k2.
Proof.
  destruct (webhook_table now event w) as [Hr (f & id & Ht)].
  split; [exact Hr|]. rewrite Ht. split.
  - apply dom_alter_L.
  - intros k1 k2 H1 H2.
    destruct (decide (k1 = id)) as [->|N1];
      [|rewrite lookup_alter_ne in H1 by congruence; congruence].
    destruct (decide (k2 = id)) as [->|N2];
      [reflexivity|rewrite lookup_alter_ne in H2 by congruence; congruence].
Qed.

Lemma failed_payment_table now (sf : option string) (sid id : string) w :
  present sf sid ->
  (db_select_by_subscription sid w).1 = Normal (Some id) ->
  users (webhook now (invoice_payment_failed sf) w).2
  = alter (fun r => set_updated_at now (set_subscription_status "past_due" r))
      id (users w).
Proof.
  intros Hs Hsel. unfold webhook. rewrite (truthy_string_present _ _ Hs).
  run_handler.
  destruct (db_select_by_subscription_returns sid w) as [found Hf].
  rewrite Hf in Hsel |- *. cbn in Hsel. injection Hsel as ->.
  run_handler. rewrite on_cache_invalidate. reflexivity.
Qed.

(** X21.  A failed payment caps the account at 5: after
    [invoice.payment_failed] for the subscription of an account with
    usage [U], any later schedule of calls grants that account exactly
    [min K (max 0 (5 - U))] of its [K] calls, whatever its plan allows. *)
Theorem failed_payment_caps_at_five now (sf : option string) (sid id : string)
    w u (calls : list (string * Date)) :
  present sf sid ->
  (db_select_by_subscription sid w).1 = Normal (Some id) ->
  users w !! id = Some u ->
  well_typed u ->
  grants_for id
    (run_schedule calls
       (users (webhook now (invoice_payment_failed sf) w).2)).1
  = Z.min (calls_for id calls) (Z.max 0 (5 - usage_this_month u)).
Proof.
  intros Hs Hsel Hu Hwt.
  rewrite (failed_payment_table now sf sid id w Hs Hsel).
  set (u' := set_updated_at now (set_subscription_status "past_due" u)).
  assert (Hu' : alter (fun r => set_updated_at now
                                  (set_subscription_status "past_due" r))
                  id (users w) !! id = Some u')
    by (rewrite lookup_alter_eq, Hu; reflexivity).
  destruct (schedule_counts calls _ id u' Hu' Hwt) as [Hc _].
  exact Hc.
Qed.

Lemma failed_payment_caps_at_five_witness :
  grants_for "acct"
    (run_schedule [("acct", t1); ("acct", t1); ("acct", t1)]
       (users
          (webhook t1 (invoice_payment_failed (Some "sub_1"))
             (mkWorld
                {[ "acct" :=
                     set_stripe_subscription_id (Some "sub_1")
                       (sample_row "PRO" 3 999999 "active") ]}
                None)).2)).1
  = Z.min (calls_for "acct" [("acct", t1); ("acct", t1); ("acct", t1)])
      (Z.max 0
         (5 - usage_this_month
                (set_stripe_subscription_id (Some "sub_1")
                   (sample_row "PRO" 3 999999 "active")))).
Proof.
  apply (failed_payment_caps_at_five t1 (Some "sub_1") "sub_1" "acct").
  - split; [reflexivity | discriminate].
  - vm_compute. reflexivity.
  - apply (single_account_lookup _).
  - split; apply int4_small; cbn; lia.
Defined.

(** X22.  A completed checkout opens exactly the quota of the plan: after
    [checkout.session.completed] for an existing account and a price
    [PLAN_CONFIG] knows, the row carries the plan with usage 0 and status
    [active], and any later schedule of calls grants the account exactly
    [min K scrapes] of its [K] calls. *)
Theorem checkout_opens_plan_quota now (uf sf : option string)
    (id sid : string) (cfg : PlanConfig) w u (calls : list (string * Date)) :
  present uf id ->
  present sf sid ->
  users w !! id = Some u ->
  0 <= scrapes cfg <= Ledger.int4_max ->
  let w' := (webhook now (checkout_session_completed uf sf (Some cfg)) w).2 in
  (exists u',
     users w' !! id = Some u'
     /\ plan u' = cfg_plan cfg
     /\ usage_this_month u' = 0
     /\ plan_limits_scrapes u' = scrapes cfg
     /\ subscription_status u' = "active")
  /\ grants_for id (run_schedule calls (users w')).1
     = Z.min (calls_for id calls) (scrapes cfg).
Proof.
  intros Hid Hsid Hu Hrange. cbv zeta. unfold webhook.
  rewrite (truthy_string_present _ _ Hid), (truthy_string_present _ _ Hsid).
  run_handler. rewrite on_cache_invalidate. cbn [users].
  match goal with
  | |- context [alter ?f id (users w)] => set (upd := f)
  end.
  assert (Hu' : alter upd id (users w) !! id = Some (upd u))
    by (rewrite lookup_alter_eq, Hu; reflexivity).
  split.
  - exists (upd u). split; [exact Hu'|]. repeat split.
  - assert (Hwt : well_typed (upd u)).
    { split; cbn; unfold Ledger.int4, Ledger.int4_min, Ledger.int4_max in *; lia. }
    destruct (schedule_counts calls _ id (upd u) Hu' Hwt) as [Hc _].
    cbn [snd users]. rewrite Hc.
    change (getEffectiveLimit (upd u)) with (scrapes cfg).
    change (usage_this_month (upd u)) with 0. lia.
Qed.

Lemma checkout_opens_plan_quota_witness :
  let w' :=
    (webhook t1
       (checkout_session_completed (Some "acct") (Some "sub_1")
          (Some STARTER_CONFIG))
       (cached_world [])).2 in
  (exists u',
     users w' !! "acct" = Some u'
     /\ plan u' = cfg_plan STARTER_CONFIG
     /\ usage_this_month u' = 0
     /\ plan_limits_scrapes u' = scrapes STARTER_CONFIG
     /\ subscription_status u' = "active")
  /\ grants_for "acct" (run_schedule [("acct", t1)] (users w')).1
     = Z.min (calls_for "acct" [("acct", t1)]) (scrapes STARTER_CONFIG).
Proof.
  apply (checkout_opens_plan_quota t1 (Some "acct") (Some "sub_1")
           "acct" "sub_1" STARTER_CONFIG (cached_world []) stale_row).
  - split; [reflexivity | discriminate].
  - split; [reflexivity | discriminate].
  - apply (single_account_lookup stale_row).
  - vm_compute. split; discriminate.
Defined.

End WebhookProperties.

(** ** Limiter scopes and the CORS check: properties *)

Section EdgeProperties.

Import RateLimit.

Implicit Types (s e : string) (req : Request).

(** The characters of a literal prefix, moved out of the append. *)
Ltac peel_prefix H :=
  cbn [prefix generalLimiter authLimiter scrapeLimiter sheetsLimiter] in H;
  unfold USER_CACHE_PREFIX in H;
  rewrite ?append_cons, ?append_empty in H.

(** X23.  Distinct scopes share no counter: a key of one limiter is
    never a key of another, whatever the identities are, two keys of the
    same limiter are the same only for the same identity, and no limiter
    key is the cache key of a profile. *)
Theorem limiter_scopes_disjoint (l1 l2 : Limiter) (k1 k2 : string) :
  l1 ∈ limiters ->
  l2 ∈ limiters ->
  (prefix l1 +:+ k1 = prefix l2 +:+ k2 -> prefix l1 = prefix l2 /\ k1 = k2)
  /\ (forall userId, prefix l1 +:+ k1 <> USER_CACHE_PREFIX +:+ userId).
Proof.
  unfold limiters. intros H1 H2.
  repeat (apply elem_of_cons in H1 as [->|H1]);
    [| | | |apply elem_of_nil in H1; destruct H1].
  all: split; [|intros userId H; peel_prefix H; congruence].
  all: repeat (apply elem_of_cons in H2 as [->|H2]);
    [| | | |apply elem_of_nil in H2; destruct H2].
  all: intros H; first
    [ split; [reflexivity|]; cbn [prefix generalLimiter authLimiter scrapeLimiter sheetsLimiter] in H;
      exact (inj (String.app _) _ _ H)
    | peel_prefix H; congruence ].
Qed.

Lemma limiter_scopes_disjoint_witness :
  (prefix scrapeLimiter +:+ "user:u1" = prefix sheetsLimiter +:+ "user:u1" ->
   prefix scrapeLimiter = prefix sheetsLimiter /\ "user:u1" = "user:u1")
  /\ (forall userId,
        prefix scrapeLimiter +:+ "user:u1" <> USER_CACHE_PREFIX +:+ userId).
Proof.
  apply (limiter_scopes_disjoint scrapeLimiter sheetsLimiter).
  - unfold limiters. apply list_elem_of_In. cbn. auto.
  - unfold limiters. apply list_elem_of_In. cbn. auto.
Defined.






Import Cors.

(** X25.  The CORS check: a request without origin passes; an origin
    passes exactly when it is the configured front end or one of the two
    local development origins, or a [chrome-extension://] origin that, in
    production with [EXTENSION_ID] set, is that very extension.  The two
    local origins pass in every environment. *)
Theorem origin_allowed_spec (env : Env) (origin : option string) :
  (missing origin -> origin_allowed env origin = true)
  /\ (forall o,
        present origin o ->
        (origin_allowed env origin = true
         <-> o ∈ allowedOrigins env
             \/ (String.prefix "chrome-extension://" o = true
                 /\ forall id,
                      NODE_ENV env = Some "production" ->
                      present (EXTENSION_ID env) id ->
                      o = "chrome-extension://" +:+ id)))
  /\ "http://localhost:3000" ∈ allowedOrigins env
  /\ "http://localhost:5173" ∈ allowedOrigins env.
Proof.
  split; [|split; [|split]].
  - intros Hm. unfold origin_allowed.
    rewrite (truthy_string_missing _ Hm). reflexivity.
  - intros o Hp. unfold origin_allowed.
    rewrite (truthy_string_present _ _ Hp).
    case_bool_decide as Hin; [tauto|].
    destruct (String.prefix "chrome-extension://" o);
      [|split; [discriminate | intros [?|[? _]]; [tauto|discriminate]]].
    destruct (NODE_ENV env) as [mode|] eqn:Hmode.
    2: { split; [|reflexivity]. intros _. right. split; [reflexivity|].
         intros id H. discriminate H. }
    destruct (EXTENSION_ID env) as [ext|] eqn:Hext; cbn [truthy_string].
    2: { split; [|reflexivity]. intros _. right. split; [reflexivity|].
         intros id _ [H _]. discriminate H. }
    destruct (String.eqb_spec ext "") as [->|Hne].
    { split; [|reflexivity]. intros _. right. split; [reflexivity|].
      intros id _ [H Hid]. congruence. }
    destruct (String.eqb_spec mode "production") as [->|Hnp].
    + destruct (String.eqb_spec o ("chrome-extension://" +:+ ext)) as [->|Hno].
      * split; [|reflexivity]. intros _. right. split; [reflexivity|].
        intros id _ [H _]. congruence.
      * split; [discriminate|]. intros [?|[_ H]]; [tauto|].
        exfalso. apply Hno. apply H; [reflexivity|]. split; [reflexivity|assumption].
    + split; [|reflexivity]. intros _. right. split; [reflexivity|].
      intros id H. congruence.
  - unfold allowedOrigins. cbn.
    destruct (truthy_string (FRONTEND_URL env)); cbn;
      repeat (first [apply list_elem_of_here | apply list_elem_of_further]).
  - unfold allowedOrigins. cbn.
    destruct (truthy_string (FRONTEND_URL env)); cbn;
      repeat (first [apply list_elem_of_here | apply list_elem_of_further]).
Qed.

End EdgeProperties.

(** ** The extractor: retries and the item cap *)

Section ExtractorProperties.

Import Extractor.

Context {A : Type}.

Implicit Types (attempt : nat -> Completion A) (n : nat).




Lemma slice0_length (end_ : Z) (l : list A) :
  0 <= end_ -> Z.of_nat (length (slice0 end_ l)) <= end_.
Proof.
  intros H. unfold slice0. destruct (Z.ltb_spec0 end_ 0); [lia|].
  rewrite length_take. lia.
Qed.

Lemma slice0_prefix (end_ : Z) (l : list A) : slice0 end_ l `prefix_of` l.
Proof. unfold slice0. destruct (_ <? _); apply prefix_take. Qed.

End ExtractorProperties.

Section ExtractDataProperties.

Import Extractor.

Context {A : Type}.

(** X27.  [extractData], for a [maxItems] that is not negative (the
    route accepts only positive ones), returns a leading part of what
    the model gave, of at most [MAX_ITEMS] items and at most [maxItems]
    when the request names one; an error of [callGemini] comes out as it
    is. *)
Theorem extractData_cap (MAX_ITEMS : Z) (MAX_RETRIES : nat)
    (maxItems : option Z) (attempt : nat -> Completion (list A)) :
  0 <= MAX_ITEMS ->
  (forall m, maxItems = Some m -> 0 <= m) ->
  match (callGemini MAX_RETRIES attempt).1 with
  | Normal data =>
      exists items,
        extractData MAX_ITEMS MAX_RETRIES maxItems attempt = Normal items
        /\ items `prefix_of` data
        /\ Z.of_nat (length items) <= MAX_ITEMS
        /\ (forall m, maxItems = Some m -> 0 < m ->
              Z.of_nat (length items) <= m)
  | Throw e => extractData MAX_ITEMS MAX_RETRIES maxItems attempt = Throw e
  end.
Proof.
  intros Hmax Hnonneg. unfold extractData.
  destruct (callGemini MAX_RETRIES attempt).1 as [data|e]; [|reflexivity].
  eexists. split; [reflexivity|]. split; [apply slice0_prefix|].
  destruct maxItems as [m|].
  - specialize (Hnonneg m eq_refl).
    destruct (Z.eqb_spec m 0) as [->|Hm].
    + split; [|intros m' H; injection H as <-; lia].
      etransitivity; [apply slice0_length|]; lia.
    + split.
      * etransitivity; [apply slice0_length|]; lia.
      * intros m' H Hm'. injection H as <-.
        etransitivity; [apply slice0_length|]; lia.
  - split; [|intros m H; discriminate H].
    etransitivity; [apply slice0_length|]; lia.
Qed.

End ExtractDataProperties.

Lemma extractData_cap_witness :
  match (Extractor.callGemini 2 (fun n => if Nat.eqb n 1 then Normal [1; 2; 3]
                                else Throw "503 overloaded")).1 with
  | Normal data =>
      exists items,
        Extractor.extractData 500 2 (Some 2)
          (fun n => if Nat.eqb n 1 then Normal [1; 2; 3]
                    else Throw "503 overloaded") = Normal items
        /\ items `prefix_of` data
        /\ Z.of_nat (length items) <= 500
        /\ (forall m, Some 2 = Some m -> 0 < m ->
              Z.of_nat (length items) <= m)
  | Throw e =>
      Extractor.extractData 500 2 (Some 2)
        (fun n => if Nat.eqb n 1 then Normal [1; 2; 3]
                  else Throw "503 overloaded") = Throw e
  end.
Proof.
  apply (extractData_cap 500 2 (Some 2)
           (fun n => if Nat.eqb n 1 then Normal [1; 2; 3]
                     else Throw "503 overloaded")).
  - lia.
  - intros m H. injection H as <-. lia.
Defined.

(** Without that, the cap does not hold: [slice(0, -1)] drops one item
    and keeps the rest. *)
Example extractData_negative_maxItems :
  Extractor.extractData 2 0 (Some (-1)) (fun _ => Normal [1; 2; 3; 4])
  = Normal [1; 2; 3].
Proof. reflexivity. Qed.


(** ** The CSV field and the sheet grid: properties *)

Section TableProperties.

Import Table.

Lemma includes_char (c : ascii) (s : string) :
  includes (String c "") s = has_char c s.
Proof.
  induction s as [|d s IH]; [reflexivity|].
  cbn [includes has_char String.prefix]. rewrite IH.
  destruct (ascii_dec c d) as [->|Hne].
  - rewrite Ascii.eqb_refl. destruct s; reflexivity.
  - destruct (Ascii.eqb_spec d c); [congruence | reflexivity].
Qed.

(** Doubling the quotes loses nothing, also in front of the closing
    quote. *)
Lemma double_quotes_closed_inj (a : string) :
  forall b,
    double_quotes a +:+ String dquote "" = double_quotes b +:+ String dquote "" ->
    a = b.
Proof.
  induction a as [|c a IH]; intros [|d b] H; cbn [double_quotes] in H.
  - reflexivity.
  - destruct (Ascii.eqb_spec d dquote) as [->|Hd];
      rewrite ?append_cons, ?append_empty in H.
    + injection H as H. destruct (double_quotes b); discriminate H.
    + injection H as H _. congruence.
  - destruct (Ascii.eqb_spec c dquote) as [->|Hc];
      rewrite ?append_cons, ?append_empty in H.
    + injection H as H. destruct (double_quotes a); discriminate H.
    + injection H as H _. congruence.
  - destruct (Ascii.eqb_spec c dquote) as [->|Hc],
             (Ascii.eqb_spec d dquote) as [->|Hd];
      rewrite ?append_cons in H.
    + injection H as H. f_equal. apply IH. exact H.
    + injection H as H _. congruence.
    + injection H as H _. congruence.
    + injection H as Hcd H. subst d. f_equal. apply IH. exact H.
Qed.

(** X28.  [escapeCSVField] loses nothing: two different strings are
    never written as the same field. *)
Theorem escapeCSVField_injective (a b : string) :
  escapeCSVField (Some a) = escapeCSVField (Some b) -> a = b.
Proof.
  unfold escapeCSVField. rewrite !includes_char.
  destruct (has_char "," a || has_char dquote a || has_char newline a) eqn:Ha,
           (has_char "," b || has_char dquote b || has_char newline b) eqn:Hb.
  - intros H. injection H as H. apply double_quotes_closed_inj. exact H.
  - intros <-. cbn [has_char] in Hb. rewrite Ascii.eqb_refl in Hb.
    rewrite orb_true_r in Hb. discriminate Hb.
  - intros ->. cbn [has_char] in Ha. rewrite Ascii.eqb_refl in Ha.
    rewrite orb_true_r in Ha. discriminate Ha.
  - intros H. exact H.
Qed.

Lemma escapeCSVField_injective_witness :
  String "a" (String "," (String dquote "b"))
  = String "a" (String "," (String dquote "b")).
Proof.
  exact (escapeCSVField_injective
           (String "a" (String "," (String dquote "b")))
           (String "a" (String "," (String dquote "b"))) eq_refl).
Defined.

Context {V : Type}.
Variable nullish : V -> bool.
Variable String_of : V -> string.

Lemma set_add_fold_NoDup (ks acc : list string) :
  NoDup acc -> NoDup (fold_left set_add ks acc).
Proof.
  revert acc. induction ks as [|k ks IH]; intros acc Hnd; [exact Hnd|].
  cbn [fold_left]. apply IH. unfold set_add. case_bool_decide as Hin.
  - exact Hnd.
  - apply NoDup_app. split; [exact Hnd|]. split.
    + intros x Hx Hx'. apply list_elem_of_singleton in Hx'. congruence.
    + apply NoDup_singleton.
Qed.

Lemma set_add_fold_elem (ks acc : list string) (k : string) :
  k ∈ fold_left set_add ks acc <-> k ∈ acc \/ k ∈ ks.
Proof.
  revert acc. induction ks as [|k' ks IH]; intros acc; cbn [fold_left].
  - split; [auto|]. intros [H|H]; [exact H|]. apply elem_of_nil in H. tauto.
  - rewrite IH, elem_of_cons. unfold set_add. case_bool_decide as Hin.
    + split; [tauto|]. intros [H|[->|H]]; auto.
    + rewrite elem_of_app, list_elem_of_singleton. tauto.
Qed.

Lemma allKeys_from_NoDup (data : list (@Obj V)) (acc : list string) :
  NoDup acc ->
  NoDup (fold_left (fun keys row => fold_left set_add (map fst row) keys)
           data acc).
Proof.
  revert acc. induction data as [|obj data IH]; intros acc Hnd; [exact Hnd|].
  cbn [fold_left]. apply IH, set_add_fold_NoDup, Hnd.
Qed.

Lemma allKeys_from_elem (data : list (@Obj V)) (acc : list string)
    (k : string) :
  k ∈ fold_left (fun keys row => fold_left set_add (map fst row) keys)
        data acc
  <-> k ∈ acc \/ exists obj, obj ∈ data /\ k ∈ map fst obj.
Proof.
  revert acc. induction data as [|obj data IH]; intros acc; cbn [fold_left].
  - split; [auto|]. intros [H|(obj & H & _)]; [exact H|].
    apply elem_of_nil in H. tauto.
  - rewrite IH, set_add_fold_elem. split.
    + intros [[H|H]|(o & Ho & Hk)]; [auto| |].
      * right. exists obj. split; [apply list_elem_of_here | exact H].
      * right. exists o. split; [apply list_elem_of_further, Ho | exact Hk].
    + intros [H|(o & Ho & Hk)]; [auto|].
      apply elem_of_cons in Ho as [->|Ho]; [auto|].
      right. exists o. auto.
Qed.

(** X29.  The grid of [dataTo2DArray]: for no data it is the one empty
    row; otherwise it is a header row followed by one row an object, the
    headers are the keys of all the objects, each once, and every row is
    as long as the header row. *)
Theorem dataTo2DArray_grid (obj : @Obj V) (data : list (@Obj V)) :
  dataTo2DArray nullish String_of None = [[]]
  /\ dataTo2DArray nullish String_of (Some []) = [[]]
  /\ exists headers rows,
       dataTo2DArray nullish String_of (Some (obj :: data)) = headers :: rows
       /\ length rows = length (obj :: data)
       /\ NoDup headers
       /\ (forall k, k ∈ headers
                     <-> exists o, o ∈ obj :: data /\ k ∈ map fst o)
       /\ Forall (fun row => length row = length headers) rows.
Proof.
  split; [reflexivity|]. split; [reflexivity|].
  eexists _, _. split; [reflexivity|]. split; [|split; [|split]].
  - rewrite length_map. reflexivity.
  - apply allKeys_from_NoDup. apply NoDup_nil_2.
  - intros k. unfold allKeys. rewrite allKeys_from_elem. split.
    + intros [H|H]; [apply elem_of_nil in H; tauto | exact H].
    + auto.
  - apply Forall_forall. intros row Hrow.
    apply list_elem_of_In, in_map_iff in Hrow as (o & <- & _).
    apply length_map.
Qed.

End TableProperties.

(** ** Sign-in: properties *)

Section CallbackProperties.

Import Auth.

Implicit Types (w : World) (u : UserRow) (now : Date).

(** X30.  POST /api/auth/callback, for a verified principal: an account
    it has not seen gets a row on the FREE plan with usage 0, limit 5,
    status [none] and no billing date; an account it has seen keeps its
    plan, usage, limits, status and billing columns, only the Google
    tokens and [updated_at] may change; every other row is as it was. *)
Theorem callback_provisions_or_preserves (toISOString : Date -> string) now
    (accessToken providerToken providerRefreshToken : option string)
    (getUser : string -> Completion GetUserAnswer) (token id : string) w :
  present accessToken token ->
  getUser token = Normal (mkGetUserAnswer false (Some id)) ->
  let after :=
    callback toISOString now accessToken providerToken providerRefreshToken
      getUser w in
  (forall other, other <> id -> users after.2 !! other = users w !! other)
  /\ (users w !! id = None ->
      after.1 = Normal (mkReply 200 (Some (0, 5)))
      /\ exists u',
           users after.2 !! id = Some u'
           /\ plan u' = "FREE"
           /\ usage_this_month u' = 0
           /\ plan_limits_scrapes u' = 5
           /\ subscription_status u' = "none"
           /\ billing_date u' = None
           /\ google_provider_token u' = providerToken
           /\ google_provider_refresh_token u' = providerRefreshToken)
  /\ (forall u,
        users w !! id = Some u ->
        after.1 = Normal (mkReply 200
                            (Some (usage_this_month u, plan_limits_scrapes u)))
        /\ exists u',
             users after.2 !! id = Some u' /\ same_account_state u u').
Proof.
  intros Htok Hget. cbv zeta. unfold callback.
  rewrite (truthy_string_present _ _ Htok), Hget. cbn [error authUser].
  unfold try_catch, mbind, Js_bind, mret, Js_ret, db_select, db_update.
  cbn [fst snd users redisClient].
  destruct (users w !! id) as [u|] eqn:Hu; cbn [fst snd users redisClient].
  - split; [intros other Hne; apply lookup_alter_ne; congruence|].
    split; [intros H; discriminate H|].
    intros u0 H. injection H as <-. split.
    + destruct (truthy_string providerToken),
               (truthy_string providerRefreshToken); reflexivity.
    + eexists. split; [rewrite lookup_alter_eq, Hu; reflexivity|].
      destruct (truthy_string providerToken),
               (truthy_string providerRefreshToken); repeat split.
  - split; [intros other Hne; apply lookup_insert_ne; congruence|].
    split; [|intros u0 H; discriminate H].
    intros _. split; [reflexivity|].
    eexists. split; [apply lookup_insert_eq|]. repeat split.
Qed.

Lemma callback_provisions_or_preserves_witness :
  let after :=
    callback (fun _ => "2026-02-02T00:00:01.000Z") t1 (Some "jwt")
      (Some "ya29.new") None
      (fun _ => Normal (mkGetUserAnswer false (Some "acct")))
      (cached_world []) in
  (forall other,
     other <> "acct" ->
     users after.2 !! other = users (cached_world []) !! other)
  /\ (users (cached_world []) !! "acct" = None ->
      after.1 = Normal (mkReply 200 (Some (0, 5)))
      /\ exists u',
           users after.2 !! "acct" = Some u'
           /\ plan u' = "FREE"
           /\ usage_this_month u' = 0
           /\ plan_limits_scrapes u' = 5
           /\ subscription_status u' = "none"
           /\ billing_date u' = None
           /\ google_provider_token u' = Some "ya29.new"
           /\ google_provider_refresh_token u' = None)
  /\ (forall u,
        users (cached_world []) !! "acct" = Some u ->
        after.1 = Normal (mkReply 200
                            (Some (usage_this_month u, plan_limits_scrapes u)))
        /\ exists u',
             users after.2 !! "acct" = Some u' /\ same_account_state u u').
Proof.
  apply (callback_provisions_or_preserves
           (fun _ => "2026-02-02T00:00:01.000Z") t1 (Some "jwt")
           (Some "ya29.new") None
           (fun _ => Normal (mkGetUserAnswer false (Some "acct")))
           "jwt" "acct" (cached_world [])).
  - split; [reflexivity | discriminate].
  - reflexivity.
Defined.

End CallbackProperties.
